(** * A shallow embedding of the todo-list REST API and of its client

    The server (Express handlers of [App/server/server.js]) and the client
    controller ([App/src/App.tsx]) are modelled over an explicit store: the
    todo collection is a list of documents in insertion order, every handler
    is a function from the store and the request to a response and the store
    afterwards, and the calls of the document store that can throw return in
    an error monad whose failures the handlers catch as the source does.

    Texts are [string]s read as ASCII.  The white space and the letter pairs
    that JavaScript and the store's regular expressions know beyond ASCII are
    left out. *)

From Stdlib Require Import String Ascii List Bool Arith ZArith Lia.
From Stdlib Require Import Sorting.Permutation Sorting.Sorted.
Import ListNotations.
Open Scope string_scope.
Open Scope list_scope.
Open Scope nat_scope.

(** ** JavaScript strings *)

Module Js.

(** The ASCII part of the white space that [String.prototype.trim] strips:
    tab, line feed, vertical tab, form feed, carriage return, space. *)
Definition is_space (c : ascii) : bool :=
  let n := nat_of_ascii c in
  ((9 <=? n) && (n <=? 13)) || (n =? 32).

Fixpoint trimStart (s : string) : string :=
  match s with
  | EmptyString => EmptyString
  | String c s' => if is_space c then trimStart s' else s
  end.

Fixpoint trimEnd (s : string) : string :=
  match s with
  | EmptyString => EmptyString
  | String c s' =>
      match trimEnd s' with
      | EmptyString => if is_space c then EmptyString else String c EmptyString
      | t => String c t
      end
  end.

(** The string is empty or starts with a character that is not white
    space. *)
Definition starts_clean (s : string) : bool :=
  match s with
  | EmptyString => true
  | String c _ => negb (is_space c)
  end.

(** The last character of the string is white space. *)
Fixpoint ends_space (s : string) : bool :=
  match s with
  | EmptyString => false
  | String c s' =>
      match s' with
      | EmptyString => is_space c
      | _ => ends_space s'
      end
  end.

(** [s.trim()] *)
Definition trim (s : string) : string := trimEnd (trimStart s).

(** Truthiness of a string value: only the empty string is falsy. *)
Definition truthy (s : string) : bool :=
  match s with EmptyString => false | _ => true end.

Definition is_upper (c : ascii) : bool :=
  let n := nat_of_ascii c in (65 <=? n) && (n <=? 90).

Definition lower_char (c : ascii) : ascii :=
  if is_upper c then ascii_of_nat (nat_of_ascii c + 32) else c.

Fixpoint toLowerCase (s : string) : string :=
  match s with
  | EmptyString => EmptyString
  | String c s' => String (lower_char c) (toLowerCase s')
  end.

(** Equality of two texts up to the case of their letters. *)
Definition eq_ci (a b : string) : bool :=
  String.eqb (toLowerCase a) (toLowerCase b).

End Js.

(** ** Documents and identifiers *)

(** An [ObjectId] as the API shows it: 24 hexadecimal digits, in lower case. *)
Definition ObjectId := string.

Definition is_hex (c : ascii) : bool :=
  let n := nat_of_ascii c in
  ((48 <=? n) && (n <=? 57)) || ((65 <=? n) && (n <=? 70))
  || ((97 <=? n) && (n <=? 102)).

Fixpoint all_hex (s : string) : bool :=
  match s with
  | EmptyString => true
  | String c s' => is_hex c && all_hex s'
  end.

(** The cast of a string to an [ObjectId], as the model layer does it for
    [_id] in a query: a string of 24 hexadecimal digits is an identifier
    (the case of the digits does not matter), any other string is refused. *)
Definition castObjectId (s : string) : option ObjectId :=
  if (String.length s =? 24) && all_hex s then Some (Js.toLowerCase s) else None.

(** A todo document.  [createdAt] is in milliseconds. *)
Record Todo := mkTodo {
  _id : ObjectId;
  text : string;
  completed : bool;
  createdAt : Z
}.

Definition set_text (t : Todo) (s : string) : Todo :=
  mkTodo (_id t) s (completed t) (createdAt t).

Definition set_completed (t : Todo) (b : bool) : Todo :=
  mkTodo (_id t) (text t) b (createdAt t).

(** The collection, in insertion order (the order a query without a sort
    walks it in). *)
Definition Store := list Todo.

(** The part of [models/Todo.js] the handlers depend on. *)
Record Schema := mkSchema {
  model_name : string;
  text_trim : bool
}.

(** Modelled from the spec: the schema of [models/Todo.js], which the
    handlers import.  The text path is a required string (the README says so
    too) whose surrounding white space the store removes ("fails with
    ValidationError if text is empty after trim", "yields an item with that
    trimmed text"), [completed] defaults to false and [createdAt] to the time
    of creation. *)
Definition TodoSchema : Schema := mkSchema "Todo" true.

Definition default_completed : bool := false.

(** ** The regular expressions of the store's [$regex]

    The store compiles the pattern of a [$regex] condition with a Perl
    compatible engine.  The fragment below is what the duplicate check is
    studied on: literal characters, [.], the anchors [^] and [$],
    alternation, groups, the quantifiers [*], [+] and [?], and a backslash
    before a character that is neither a letter nor a digit.  A pattern with
    a character class, a counted repetition, a lazy or possessive quantifier,
    an escape sequence of a letter or digit, or a byte beyond ASCII is outside
    the fragment. *)

Module Regex.

Inductive regex :=
| REmpty
| RChar (c : ascii)
| RAny
| RBol
| REol
| RSeq (r1 r2 : regex)
| RAlt (r1 r2 : regex)
| ROpt (r : regex)
| RStar (r : regex).

Definition RPlus (r : regex) : regex := RSeq r (RStar r).

(** One open group while parsing: the alternatives closed so far and the
    items of the current one, both latest first.  The flag of an item says
    whether a quantifier may follow it. *)
Record frame := mkFrame {
  alts : list regex;
  cur : list (regex * bool)
}.

Definition empty_frame : frame := mkFrame [] [].

Definition seq_of (items : list (regex * bool)) : regex :=
  fold_left (fun acc it => RSeq (fst it) acc) items REmpty.

Definition close (f : frame) : regex :=
  fold_left (fun acc a => RAlt a acc) (alts f) (seq_of (cur f)).

Definition push (f : frame) (r : regex) (quantifiable : bool) : frame :=
  mkFrame (alts f) ((r, quantifiable) :: cur f).

Definition quantify (f : frame) (q : regex -> regex) : option frame :=
  match cur f with
  | (r, true) :: rest => Some (mkFrame (alts f) ((q r, false) :: rest))
  | _ => None
  end.

Definition is_alnum (c : ascii) : bool :=
  let n := nat_of_ascii c in
  ((48 <=? n) && (n <=? 57)) || ((65 <=? n) && (n <=? 90))
  || ((97 <=? n) && (n <=? 122)).

Definition is_ascii7 (c : ascii) : bool := nat_of_ascii c <? 128.

(** [parse cs esc top stack]: [esc] says that the previous character was
    an unescaped backslash, [top] is the innermost open group, [stack] the
    groups around it.  [None]: the pattern does not compile, or it is
    outside the fragment. *)
Fixpoint parse (cs : list ascii) (esc : bool) (top : frame)
    (stack : list frame) : option regex :=
  match cs with
  | [] =>
      if esc then None
      else match stack with [] => Some (close top) | _ :: _ => None end
  | c :: cs' =>
      if negb (is_ascii7 c) then None
      else if esc then
        if is_alnum c then None
        else parse cs' false (push top (RChar c) true) stack
      else
        match c with
        | "\"%char => parse cs' true top stack
        | "("%char => parse cs' false empty_frame (top :: stack)
        | ")"%char =>
            match stack with
            | [] => None
            | f :: stack' => parse cs' false (push f (close top) true) stack'
            end
        | "|"%char =>
            parse cs' false (mkFrame (seq_of (cur top) :: alts top) []) stack
        | "*"%char =>
            match quantify top RStar with
            | Some f => parse cs' false f stack
            | None => None
            end
        | "+"%char =>
            match quantify top RPlus with
            | Some f => parse cs' false f stack
            | None => None
            end
        | "?"%char =>
            match quantify top ROpt with
            | Some f => parse cs' false f stack
            | None => None
            end
        | "."%char => parse cs' false (push top RAny true) stack
        | "^"%char => parse cs' false (push top RBol false) stack
        | "$"%char => parse cs' false (push top REol false) stack
        | "["%char | "]"%char | "{"%char | "}"%char => None
        | _ => parse cs' false (push top (RChar c) true) stack
        end
  end.

Definition compile (pattern : string) : option regex :=
  parse (list_ascii_of_string pattern) false empty_frame [].

Definition newline : ascii := ascii_of_nat 10.

(** [ends r n k]: the subject has [n] characters, [k] is what is left of
    it at the current position; the result lists what is left after each
    way [r] can match there.  Letters are compared without their case. *)
Fixpoint ends (r : regex) (n : nat) (k : list ascii) : list (list ascii) :=
  match r with
  | REmpty => [k]
  | RChar c =>
      match k with
      | x :: k' =>
          if Ascii.eqb (Js.lower_char c) (Js.lower_char x) then [k'] else []
      | [] => []
      end
  | RAny =>
      match k with
      | x :: k' => if Ascii.eqb x newline then [] else [k']
      | [] => []
      end
  | RBol => if length k =? n then [k] else []
  | REol =>
      match k with
      | [] => [k]
      | [x] => if Ascii.eqb x newline then [k] else []
      | _ => []
      end
  | RSeq r1 r2 => flat_map (ends r2 n) (ends r1 n k)
  | RAlt r1 r2 => ends r1 n k ++ ends r2 n k
  | ROpt r1 => k :: ends r1 n k
  | RStar r1 =>
      (fix star (fuel : nat) (k : list ascii) : list (list ascii) :=
         match fuel with
         | 0 => [k]
         | S fuel' =>
             k :: flat_map
                    (fun k' => if length k' <? length k then star fuel' k' else [])
                    (ends r1 n k)
         end) (length k) k
  end.

Definition matches_at (r : regex) (n : nat) (k : list ascii) : bool :=
  match ends r n k with [] => false | _ :: _ => true end.

(** An unanchored search: the pattern may match from any position. *)
Fixpoint search_from (r : regex) (n : nat) (k : list ascii) : bool :=
  matches_at r n k ||
  match k with
  | [] => false
  | _ :: k' => search_from r n k'
  end.

Definition search (r : regex) (subject : string) : bool :=
  let k := list_ascii_of_string subject in
  search_from r (length k) k.

(** The engine with option [i]: the test a pattern compiles to, [None]
    when the pattern is refused. *)
Definition caseless (pattern : string) : option (string -> bool) :=
  option_map search (compile pattern).

(** *** Patterns of texts without metacharacters *)

(** The characters that mean something in a pattern of the fragment, or put
    a pattern outside of it. *)
Definition is_meta (c : ascii) : bool :=
  match c with
  | "\"%char | "("%char | ")"%char | "|"%char | "*"%char | "+"%char
  | "?"%char | "."%char | "^"%char | "$"%char
  | "["%char | "]"%char | "{"%char | "}"%char => true
  | _ => false
  end.

Definition plain_char (c : ascii) : bool := is_ascii7 c && negb (is_meta c).

Fixpoint plain (s : string) : bool :=
  match s with
  | EmptyString => true
  | String c s' => plain_char c && plain s'
  end.

(** What the pattern [^text$] compiles to when the text is plain. *)
Definition literal (t : string) : regex :=
  RSeq RBol
    (fold_right (fun c acc => RSeq (RChar c) acc) (RSeq REol REmpty)
       (list_ascii_of_string t)).

Definition push_chars (cs : list ascii) (top : frame) : frame :=
  fold_left (fun f c => push f (RChar c) true) cs top.

(** [strip_ci cs k]: what is left of [k] after the characters [cs], compared
    without their case. *)
Fixpoint strip_ci (cs k : list ascii) : option (list ascii) :=
  match cs with
  | [] => Some k
  | c :: cs' =>
      match k with
      | x :: k' =>
          if Ascii.eqb (Js.lower_char c) (Js.lower_char x) then strip_ci cs' k'
          else None
      | [] => None
      end
  end.

(** Where [$] holds: at the end, or before a line feed that ends the
    subject. *)
Definition at_end (k : list ascii) : bool :=
  match k with
  | [] => true
  | [x] => Ascii.eqb x newline
  | _ => false
  end.

Definition literal_at (t : string) (k : list ascii) : bool :=
  match strip_ci (list_ascii_of_string t) k with
  | Some k2 => at_end k2
  | None => false
  end.

Definition nl : string := String newline EmptyString.

End Regex.

(** ** The model layer: what the calls on [Todo] do to the collection *)

(** What a call on the model can throw. *)
Inductive StoreError :=
| CastError (value : string)
| ValidationError
| RegexError (pattern : string).

Inductive Result (A : Type) :=
| Ok (a : A)
| Throw (e : StoreError).
Arguments Ok {A} a.
Arguments Throw {A} e.

Definition bind {A B : Type} (r : Result A) (k : A -> Result B) : Result B :=
  match r with
  | Ok a => k a
  | Throw e => Throw e
  end.

Notation "'await' x <- r ;; k" := (bind r (fun x => k))
  (at level 61, x pattern, r at next level, right associativity).

Definition dquote : string := String (ascii_of_nat 34) EmptyString.

(** [error.message] of what the model throws.  For a refused regular
    expression the server adds the diagnosis of its engine, which is left
    out. *)
Definition error_message (sch : Schema) (e : StoreError) : string :=
  match e with
  | CastError v =>
      ("Cast to ObjectId failed for value " ++ dquote ++ v ++ dquote
       ++ " (type string) at path " ++ dquote ++ "_id" ++ dquote
       ++ " for model " ++ dquote ++ model_name sch ++ dquote)%string
  | ValidationError =>
      (model_name sch ++ " validation failed: text: Path `text` is required.")%string
  | RegexError _ => "Regular expression is invalid"
  end.

Definition cast_id (s : string) : Result ObjectId :=
  match castObjectId s with
  | Some oid => Ok oid
  | None => Throw (CastError s)
  end.

(** [Todo.find().sort({ createdAt: -1 })]: an insertion sort by decreasing
    [createdAt]; of documents of the same instant, for which the store
    promises no order, the one inserted later comes first. *)
Fixpoint insert_desc (d : Todo) (l : list Todo) : list Todo :=
  match l with
  | [] => [d]
  | x :: l' =>
      if (createdAt x <? createdAt d)%Z then d :: l else x :: insert_desc d l'
  end.

Definition find_sorted (st : Store) : list Todo :=
  fold_right insert_desc [] st.

(** The setters of the text path. *)
Definition set_path_text (sch : Schema) (s : string) : string :=
  if text_trim sch then Js.trim s else s.

(** [new Todo({ text }).save()]: the setters run, the defaults are filled in
    ([oid] is the identifier generated for the document, [now] the clock),
    the required text is validated, the document is inserted. *)
Definition save (sch : Schema) (now : Z) (oid : ObjectId) (txt : string)
    (st : Store) : Result (Todo * Store) :=
  let d := mkTodo oid (set_path_text sch txt) default_completed now in
  if Js.truthy (text d) then Ok (d, st ++ [d]) else Throw ValidationError.

Fixpoint find_by_id (oid : ObjectId) (st : Store) : option Todo :=
  match st with
  | [] => None
  | d :: st' => if String.eqb (_id d) oid then Some d else find_by_id oid st'
  end.

Fixpoint remove_by_id (oid : ObjectId) (st : Store) : Store :=
  match st with
  | [] => []
  | d :: st' => if String.eqb (_id d) oid then st' else d :: remove_by_id oid st'
  end.

Fixpoint update_by_id (oid : ObjectId) (f : Todo -> Todo) (st : Store) : Store :=
  match st with
  | [] => []
  | d :: st' =>
      if String.eqb (_id d) oid then f d :: st' else d :: update_by_id oid f st'
  end.

(** [Todo.findByIdAndDelete(id)] *)
Definition findByIdAndDelete (id : string) (st : Store)
    : Result (option Todo * Store) :=
  await oid <- cast_id id ;;
  Ok (find_by_id oid st, remove_by_id oid st).

(** [Todo.findByIdAndUpdate(id, { text }, { new: true })]: the document after
    the update is returned. *)
Definition findByIdAndUpdate (sch : Schema) (id : string) (txt : string)
    (st : Store) : Result (option Todo * Store) :=
  await oid <- cast_id id ;;
  let f := fun d => set_text d (set_path_text sch txt) in
  Ok (option_map f (find_by_id oid st), update_by_id oid f st).

Section FindOne.

(** The store's regular expressions with option [i]: a pattern compiles to
    a test on the subject, or is refused. *)
Variable engine : string -> option (string -> bool).

(** [Todo.findOne({ text: { $regex, $options: 'i' }, _id: { $ne: id } })] *)
Definition findOne_regex_ne (pattern : string) (id : string) (st : Store)
    : Result (option Todo) :=
  await oid <- cast_id id ;;
  match engine pattern with
  | None => Throw (RegexError pattern)
  | Some test =>
      Ok (find (fun d => test (text d) && negb (String.eqb (_id d) oid)) st)
  end.

End FindOne.

(** ** The API layer *)

Inductive Payload :=
| Todos (l : list Todo)
| Item (t : Todo)
| Message (m : string).

Record Response := mkResponse {
  status : nat;
  payload : Payload
}.

(** The parsed JSON body of a request, as the client sends it: each property
    is absent or has its type. *)
Record Body := mkBody {
  body_text : option string;
  body_completed : option bool
}.

Definition text_body (s : string) : Body := mkBody (Some s) None.
Definition completed_body (b : bool) : Body := mkBody None (Some b).

Section Server.

Variable sch : Schema.
Variable engine : string -> option (string -> bool).

(** What a handler's [catch] answers. *)
Definition caught (code : nat) (e : StoreError) : Response :=
  mkResponse code (Message (error_message sch e)).

(** [app.get('/api/todos')] *)
Definition get_todos (st : Store) : Response * Store :=
  (mkResponse 200 (Todos (find_sorted st)), st).

(** [app.post('/api/todos')] *)
Definition post_todo (now : Z) (oid : ObjectId) (st : Store) (b : Body)
    : Response * Store :=
  match body_text b with
  | Some txt =>
      if negb (Js.truthy txt) then
        (mkResponse 400 (Message "Text is required"), st)
      else
        match save sch now oid txt st with
        | Ok (newTodo, st') => (mkResponse 201 (Item newTodo), st')
        | Throw e => (caught 400 e, st)
        end
  | None => (mkResponse 400 (Message "Text is required"), st)
  end.

(** [app.delete('/api/todos/:id')] *)
Definition delete_todo (st : Store) (id : string) : Response * Store :=
  match findByIdAndDelete id st with
  | Ok (None, st') => (mkResponse 404 (Message "Todo not found"), st')
  | Ok (Some _, st') =>
      (mkResponse 200 (Message "Todo deleted successfully"), st')
  | Throw e => (caught 500 e, st)
  end.

(** [app.patch('/api/todos/:id')] *)
Definition patch_todo (st : Store) (id : string) (b : Body)
    : Response * Store :=
  match body_text b with
  | Some txt =>
      if negb (Js.truthy txt) || negb (Js.truthy (Js.trim txt)) then
        (mkResponse 400 (Message "Text is required"), st)
      else
        match findOne_regex_ne engine ("^" ++ Js.trim txt ++ "$")%string id st with
        | Throw e => (caught 500 e, st)
        | Ok (Some _) => (mkResponse 400 (Message "Duplicate todo text"), st)
        | Ok None =>
            match findByIdAndUpdate sch id (Js.trim txt) st with
            | Throw e => (caught 500 e, st)
            | Ok (None, st') =>
                (mkResponse 404 (Message "Todo not found"), st')
            | Ok (Some todo, st') => (mkResponse 200 (Item todo), st')
            end
        end
  | None => (mkResponse 400 (Message "Text is required"), st)
  end.

End Server.

(** Requests that reach the server, and the store after a run of them. *)
Inductive Request :=
| GetTodos
| PostTodo (now : Z) (oid : ObjectId) (b : Body)
| DeleteTodo (id : string)
| PatchTodo (id : string) (b : Body).

Definition handle (sch : Schema) (engine : string -> option (string -> bool))
    (st : Store) (rq : Request) : Response * Store :=
  match rq with
  | GetTodos => get_todos st
  | PostTodo now oid b => post_todo sch now oid st b
  | DeleteTodo id => delete_todo sch st id
  | PatchTodo id b => patch_todo sch engine st id b
  end.

Definition run (sch : Schema) (engine : string -> option (string -> bool))
    (rqs : list Request) (st : Store) : Store :=
  fold_left (fun s rq => snd (handle sch engine s rq)) rqs st.

(** ** The client controller *)

(** The server's collection and the list the component holds in its state. *)
Record World := mkWorld {
  server : Store;
  todos : list Todo
}.

Section Client.

Variable sch : Schema.
Variable engine : string -> option (string -> bool).

(** The HTTP client resolves on a status from 200 to 299 and rejects on
    any other. *)
Definition resolves (r : Response) : bool :=
  (200 <=? status r) && (status r <? 300).

(** [error.response?.data?.message], when it is truthy. *)
Definition response_message (r : Response) : option string :=
  match payload r with
  | Message m => if Js.truthy m then Some m else None
  | _ => None
  end.

(** [fetchTodos] *)
Definition fetchTodos (w : World) : World :=
  let '(r, srv) := get_todos (server w) in
  if resolves r then
    match payload r with
    | Todos l => mkWorld srv l
    | _ => mkWorld srv (todos w)
    end
  else mkWorld srv (todos w).

(** What [editTodo] returns from its [catch]. *)
Definition edit_failure (r : Response) : string :=
  match response_message r with
  | Some m => m
  | None => "An error occurred while editing the todo"
  end.

(** [text !== undefined && text !== null && text.trim() !== ""] *)
Definition meaningful_text (txt : option string) : option string :=
  match txt with
  | Some t => if String.eqb (Js.trim t) "" then None else Some t
  | None => None
  end.

(** One branch of [editTodo]: the PATCH request with body [b], then, when
    it resolved, the local list with [upd] applied to the todos of that
    [_id]; when it was rejected, the message for the caller. *)
Definition patch_then_map (id : string) (b : Body) (upd : Todo -> Todo)
    (w : World) : option string * World :=
  let '(r, srv) := patch_todo sch engine (server w) id b in
  if resolves r then
    (None,
     mkWorld srv
       (map (fun todo => if String.eqb (_id todo) id then upd todo else todo)
            (todos w)))
  else (Some (edit_failure r), mkWorld srv (todos w)).

(** [editTodo(id, text, completed)]: the result is the message returned
    to the caller, [None] for [null]. *)
Definition editTodo (id : string) (txt : option string)
    (cmp : option bool) (w : World) : option string * World :=
  match meaningful_text txt with
  | Some t => patch_then_map id (text_body t) (fun todo => set_text todo t) w
  | None =>
      match cmp with
      | Some c =>
          patch_then_map id (completed_body c)
            (fun todo => set_completed todo c) w
      | None => (None, w)
      end
  end.

End Client.

(** ** The rest of the component [App] *)

(** The state of [App]: the list (with the server it mirrors), the controlled
    input and the [loading] flag. *)
Record AppState := mkApp {
  world : World;
  inputText : string;
  loading : bool
}.

Section App.

Variable sch : Schema.

(** [addTodo]: [now] and [oid] are the clock and the identifier the server
    gives the new document.  A blank input returns before anything is set;
    otherwise [loading] is raised for the time of the request and lowered in
    [finally]. *)
Definition addTodo (now : Z) (oid : ObjectId) (a : AppState) : AppState :=
  if negb (Js.truthy (Js.trim (inputText a))) then a
  else
    let '(r, srv) :=
      post_todo sch now oid (server (world a)) (text_body (inputText a)) in
    if resolves r then
      match payload r with
      | Item d => mkApp (mkWorld srv (d :: todos (world a))) "" false
      | _ => mkApp (mkWorld srv (todos (world a))) "" false
      end
    else mkApp (mkWorld srv (todos (world a))) (inputText a) false.

(** [handleKeyPress] *)
Definition handleKeyPress (key : string) (now : Z) (oid : ObjectId)
    (a : AppState) : AppState :=
  if String.eqb key "Enter" then addTodo now oid a else a.

(** [deleteTodo(id)] *)
Definition deleteTodo (id : string) (w : World) : World :=
  let '(r, srv) := delete_todo sch (server w) id in
  if resolves r then
    mkWorld srv (filter (fun todo => negb (String.eqb (_id todo) id)) (todos w))
  else mkWorld srv (todos w).

End App.

(** ** The component [TodoItem] *)

Module TodoItem.

(** The local state of one item of the list. *)
Record State := mkState {
  isEditing : bool;
  editText : string;
  error : string
}.

(** The state the component starts in, for the todo it is given. *)
Definition initial (todo : Todo) : State := mkState false (text todo) "".

(** [handleEditClick] *)
Definition handleEditClick (todo : Todo) (s : State) : State :=
  mkState true (text todo) (error s).

(** [handleCancelClick] *)
Definition handleCancelClick (todo : Todo) (s : State) : State :=
  mkState false (text todo) (error s).

(** [handleChange(value)] *)
Definition handleChange (value : string) (s : State) : State :=
  mkState (isEditing s) value (if Js.truthy (error s) then "" else error s).

Section Save.

Variable sch : Schema.
Variable engine : string -> option (string -> bool).

(** [handleSaveClick]: [editTodo] is called with the identifier and the
    text, without [completed]. *)
Definition handleSaveClick (todo : Todo) (s : State) (w : World)
    : State * World :=
  let '(errorMsg, w') :=
    editTodo sch engine (_id todo) (Some (editText s)) None w in
  match errorMsg with
  | Some m =>
      if Js.truthy m then (mkState (isEditing s) (editText s) m, w')
      else (mkState false (editText s) "", w')
  | None => (mkState false (editText s) "", w')
  end.

(** [handleKeyDown] *)
Definition handleKeyDown (key : string) (todo : Todo) (s : State) (w : World)
    : State * World :=
  if String.eqb key "Enter" then handleSaveClick todo s w else (s, w).

End Save.

End TodoItem.

(** The list of [App] is what reading the list from the server would give. *)
Definition mirrors (w : World) : Prop := todos w = find_sorted (server w).

(** ** Notions the statements use *)

(** The order of the list that is read: newer items first. *)
Definition newer_first (x y : Todo) : Prop := (createdAt y <= createdAt x)%Z.

(** The text of the item is not empty after trimming. *)
Definition nonblank (d : Todo) : Prop := Js.trim (text d) <> "".

(** The text of the item has no white space around it. *)
Definition trimmed (d : Todo) : Prop := Js.trim (text d) = text d.

(** The first item other than [oid] whose text is [t] up to case. *)
Definition find_duplicate (t : string) (oid : ObjectId) (st : Store)
    : option Todo :=
  find (fun d => Js.eq_ci (text d) t && negb (String.eqb (_id d) oid)) st.

(** A status of the 4xx class. *)
Definition is_client_error (r : Response) : bool :=
  (400 <=? status r) && (status r <? 500).

(** Identifiers and collections of the examples. *)
Definition idA : ObjectId := "507f1f77bcf86cd799439011".
Definition idB : ObjectId := "507f1f77bcf86cd799439012".

(** Two stored items; the text of the first reads as a pattern. *)
Definition store_plus : Store :=
  [mkTodo idA "a+b" false 1000; mkTodo idB "draft" false 1001].

(** Two stored items; the first is matched by the pattern [^a.b$]. *)
Definition store_axb : Store :=
  [mkTodo idA "axb" false 1000; mkTodo idB "draft" false 1001].

(** * Properties *)

(** ** Trimming *)

Module JsFacts.
Import Js.

Lemma trimStart_clean (s : string) : starts_clean (trimStart s) = true.
Proof.
  induction s as [|c s IH]; simpl; [reflexivity|].
  destruct (is_space c) eqn:E; [exact IH|].
  simpl. now rewrite E.
Qed.

Lemma trimStart_fixed (s : string) :
  starts_clean s = true -> trimStart s = s.
Proof.
  destruct s as [|c s]; simpl; [reflexivity|].
  now destruct (is_space c).
Qed.

Lemma trimEnd_clean (s : string) :
  starts_clean s = true -> starts_clean (trimEnd s) = true.
Proof.
  destruct s as [|c s]; simpl; [reflexivity|].
  intros H. destruct (trimEnd s).
  - destruct (is_space c) eqn:E; simpl; [reflexivity|]. now rewrite E.
  - exact H.
Qed.

Lemma trimEnd_idem (s : string) : trimEnd (trimEnd s) = trimEnd s.
Proof.
  induction s as [|c s IH]; simpl; [reflexivity|].
  destruct (trimEnd s) as [|c' t] eqn:E.
  - destruct (is_space c) eqn:Ec; simpl; [reflexivity|]. now rewrite Ec.
  - simpl in *. now rewrite IH.
Qed.

Lemma trim_idem (s : string) : trim (trim s) = trim s.
Proof.
  unfold trim.
  rewrite (trimStart_fixed (trimEnd (trimStart s))).
  - apply trimEnd_idem.
  - apply trimEnd_clean, trimStart_clean.
Qed.

Lemma truthy_false (s : string) : truthy s = false <-> s = EmptyString.
Proof. destruct s; simpl; split; intros H; congruence. Qed.

Lemma truthy_true (s : string) : truthy s = true <-> s <> EmptyString.
Proof. destruct s; simpl; split; intros H; congruence. Qed.

(** A text that is not blank is not empty. *)
Lemma trim_truthy (s : string) : truthy (trim s) = true -> truthy s = true.
Proof. destruct s; simpl; [discriminate|reflexivity]. Qed.

Lemma trimEnd_no_space (u : string) : ends_space (trimEnd u) = false.
Proof.
  induction u as [|c u IH]; simpl; [reflexivity|].
  destruct (trimEnd u) as [|c' t] eqn:E.
  - destruct (is_space c) eqn:Ec; simpl; [reflexivity|exact Ec].
  - exact IH.
Qed.

Lemma trimmed_no_space (s : string) : trim s = s -> ends_space s = false.
Proof. intros H. rewrite <- H. apply trimEnd_no_space. Qed.

End JsFacts.

(** ** The sorted query *)

Lemma insert_desc_perm (d : Todo) (l : list Todo) :
  Permutation (insert_desc d l) (d :: l).
Proof.
  induction l as [|x l IH]; simpl; [apply Permutation_refl|].
  destruct (createdAt x <? createdAt d)%Z.
  - apply Permutation_refl.
  - eapply perm_trans; [apply perm_skip, IH | apply perm_swap].
Qed.

Lemma find_sorted_perm (st : Store) : Permutation (find_sorted st) st.
Proof.
  induction st as [|d st IH]; simpl; [constructor|].
  eapply perm_trans; [apply insert_desc_perm | now apply perm_skip].
Qed.

Lemma insert_desc_hd (d x : Todo) (l : list Todo) :
  (createdAt d <= createdAt x)%Z -> HdRel newer_first x l ->
  HdRel newer_first x (insert_desc d l).
Proof.
  intros Hd Hl. destruct l as [|y l]; simpl.
  - constructor. exact Hd.
  - destruct (createdAt y <? createdAt d)%Z; constructor.
    + exact Hd.
    + now inversion Hl.
Qed.

Lemma insert_desc_sorted (d : Todo) (l : list Todo) :
  Sorted newer_first l -> Sorted newer_first (insert_desc d l).
Proof.
  induction l as [|x l IH]; simpl; intros Hs.
  - repeat constructor.
  - inversion Hs as [|? ? Hs' Hhd]; subst.
    destruct (createdAt x <? createdAt d)%Z eqn:E.
    + constructor; [exact Hs|]. constructor.
      unfold newer_first. apply Z.ltb_lt in E. lia.
    + constructor; [now apply IH|].
      apply insert_desc_hd; [|exact Hhd].
      apply Z.ltb_ge in E. exact E.
Qed.

Lemma find_sorted_sorted (st : Store) : Sorted newer_first (find_sorted st).
Proof.
  induction st as [|d st IH]; simpl; [constructor|].
  now apply insert_desc_sorted.
Qed.

(** Appending two documents that are newer than all the others, the later
    one last, puts them at the front of the sorted list, the later first. *)
Lemma find_sorted_two_newest (st : Store) (a b : Todo) :
  Forall (fun d => (createdAt d <= createdAt a)%Z) st ->
  (createdAt a < createdAt b)%Z ->
  find_sorted (st ++ [a; b]) = b :: a :: find_sorted st.
Proof.
  intros Hst Hab. induction Hst as [|d st Hd Hst IH]; simpl.
  - replace (createdAt b <? createdAt a)%Z with false; [reflexivity|].
    symmetry. apply Z.ltb_ge. lia.
  - rewrite IH. simpl.
    replace (createdAt b <? createdAt d)%Z with false
      by (symmetry; apply Z.ltb_ge; lia).
    replace (createdAt a <? createdAt d)%Z with false
      by (symmetry; apply Z.ltb_ge; lia).
    reflexivity.
Qed.

(** ** The collection *)

Lemma string_length_append (a b : string) :
  String.length (a ++ b)%string = String.length a + String.length b.
Proof. induction a as [|c a IH]; simpl; [reflexivity|]. now rewrite IH. Qed.

(** The message of a failed validation is never the handlers' own. *)
Lemma validation_message_differs (sch : Schema) :
  error_message sch ValidationError <> "Text is required".
Proof.
  intros H. apply (f_equal String.length) in H.
  simpl in H. rewrite string_length_append in H. simpl in H. lia.
Qed.

Lemma find_by_id_id (oid : ObjectId) (st : Store) (d : Todo) :
  find_by_id oid st = Some d -> _id d = oid.
Proof.
  induction st as [|x st IH]; simpl; [discriminate|].
  destruct (String.eqb_spec (_id x) oid) as [E|E]; [|exact IH].
  intros H. now inversion H; subst.
Qed.

Lemma find_by_id_In (oid : ObjectId) (st : Store) (d : Todo) :
  find_by_id oid st = Some d -> In d st.
Proof.
  induction st as [|x st IH]; simpl; [discriminate|].
  destruct (String.eqb (_id x) oid).
  - intros H. inversion H. now left.
  - intros H. right. now apply IH.
Qed.

Lemma find_by_id_none (oid : ObjectId) (st : Store) :
  find_by_id oid st = None <-> (forall d, In d st -> _id d <> oid).
Proof.
  induction st as [|x st IH]; simpl.
  - split; [intros _ d []|reflexivity].
  - destruct (String.eqb_spec (_id x) oid) as [E|E]; split.
    + discriminate.
    + intros H. exfalso. apply (H x); [now left|exact E].
    + intros H d [<-|Hd]; [exact E|]. now apply IH.
    + intros H. apply IH. intros d Hd. apply H. now right.
Qed.

Lemma remove_by_id_none (oid : ObjectId) (st : Store) :
  find_by_id oid st = None -> remove_by_id oid st = st.
Proof.
  induction st as [|x st IH]; simpl; [reflexivity|].
  destruct (String.eqb (_id x) oid); [discriminate|].
  intros H. now rewrite IH.
Qed.

(** Deleting takes one document out and leaves the others where they are. *)
Lemma remove_by_id_split (oid : ObjectId) (st : Store) (d : Todo) :
  find_by_id oid st = Some d ->
  exists l1 l2,
    st = l1 ++ d :: l2 /\ remove_by_id oid st = l1 ++ l2
    /\ find_by_id oid l1 = None.
Proof.
  induction st as [|x st IH]; simpl; [discriminate|].
  destruct (String.eqb (_id x) oid) eqn:E.
  - intros H. inversion H; subst. now exists [], st.
  - intros H. destruct (IH H) as (l1 & l2 & H1 & H2 & H3).
    exists (x :: l1), l2. simpl. rewrite E, H2, H3. now rewrite H1 at 1.
Qed.

Lemma remove_by_id_gone (oid : ObjectId) (st : Store) :
  NoDup (map _id st) -> find_by_id oid (remove_by_id oid st) = None.
Proof.
  induction st as [|x st IH]; simpl; [reflexivity|].
  intros Hnd. inversion Hnd as [|? ? Hx Hst]; subst.
  destruct (String.eqb_spec (_id x) oid) as [E|E].
  - apply find_by_id_none. intros d Hd Heq. apply Hx.
    rewrite E, <- Heq. now apply in_map.
  - simpl. destruct (String.eqb_spec (_id x) oid); [contradiction|].
    now apply IH.
Qed.

Lemma update_by_id_none (oid : ObjectId) (f : Todo -> Todo) (st : Store) :
  find_by_id oid st = None -> update_by_id oid f st = st.
Proof.
  induction st as [|x st IH]; simpl; [reflexivity|].
  destruct (String.eqb (_id x) oid); [discriminate|].
  intros H. now rewrite IH.
Qed.

Lemma update_by_id_find (oid : ObjectId) (f : Todo -> Todo) (st : Store)
    (d : Todo) :
  (forall x, _id (f x) = _id x) ->
  find_by_id oid st = Some d ->
  find_by_id oid (update_by_id oid f st) = Some (f d).
Proof.
  intros Hf. induction st as [|x st IH]; simpl; [discriminate|].
  destruct (String.eqb (_id x) oid) eqn:E; simpl.
  - intros H. inversion H; subst. now rewrite Hf, E.
  - rewrite E. exact IH.
Qed.


Lemma Forall_remove_by_id (P : Todo -> Prop) (oid : ObjectId) (st : Store) :
  Forall P st -> Forall P (remove_by_id oid st).
Proof.
  induction 1 as [|x st Hx Hst IH]; simpl; [constructor|].
  destruct (String.eqb (_id x) oid); [exact Hst|now constructor].
Qed.

Lemma Forall_update_by_id (P : Todo -> Prop) (oid : ObjectId)
    (f : Todo -> Todo) (st : Store) :
  (forall x, P (f x)) -> Forall P st -> Forall P (update_by_id oid f st).
Proof.
  intros Hf. induction 1 as [|x st Hx Hst IH]; simpl; [constructor|].
  destruct (String.eqb (_id x) oid); constructor; auto.
Qed.

(** ** Creating *)

Lemma post_todo_empty (sch : Schema) (now : Z) (oid : ObjectId) (st : Store) :
  post_todo sch now oid st (text_body "")
  = (mkResponse 400 (Message "Text is required"), st).
Proof. reflexivity. Qed.

Lemma post_todo_missing (sch : Schema) (now : Z) (oid : ObjectId) (st : Store)
    (c : option bool) :
  post_todo sch now oid st (mkBody None c)
  = (mkResponse 400 (Message "Text is required"), st).
Proof. reflexivity. Qed.

(** With a schema that trims, a text that is not blank is saved trimmed. *)
Lemma post_todo_saves (sch : Schema) (now : Z) (oid : ObjectId) (st : Store)
    (txt : string) :
  text_trim sch = true -> Js.trim txt <> "" ->
  post_todo sch now oid st (text_body txt)
  = (mkResponse 201 (Item (mkTodo oid (Js.trim txt) false now)),
     st ++ [mkTodo oid (Js.trim txt) false now]).
Proof.
  intros Ht Hn. unfold post_todo, save, set_path_text. simpl. rewrite Ht.
  apply JsFacts.truthy_true in Hn. rewrite Hn.
  now rewrite (JsFacts.trim_truthy _ Hn).
Qed.

(** With a schema that trims, a blank text that is not empty is handed to
    the store and refused by its validation. *)
Lemma post_todo_blank (sch : Schema) (now : Z) (oid : ObjectId) (st : Store)
    (txt : string) :
  text_trim sch = true -> Js.trim txt = "" -> txt <> "" ->
  post_todo sch now oid st (text_body txt)
  = (mkResponse 400 (Message (error_message sch ValidationError)), st).
Proof.
  intros Ht Hb Hn. unfold post_todo, save, set_path_text. simpl. rewrite Ht.
  apply JsFacts.truthy_true in Hn. rewrite Hn. simpl. now rewrite Hb.
Qed.

(** Whatever the schema, three spaces are not answered with the handler's
    own message: they are saved as they are, or refused by the store. *)
Lemma post_todo_spaces (sch : Schema) (now : Z) (oid : ObjectId) (st : Store) :
  fst (post_todo sch now oid st (text_body "   "))
  <> mkResponse 400 (Message "Text is required").
Proof.
  unfold post_todo, save, set_path_text. simpl.
  destruct (text_trim sch); simpl; intros H; inversion H.
  now apply (validation_message_differs sch).
Qed.

Lemma set_path_text_trim (sch : Schema) (txt : string) :
  set_path_text sch (Js.trim txt) = Js.trim txt.
Proof.
  unfold set_path_text. destruct (text_trim sch); [|reflexivity].
  apply JsFacts.trim_idem.
Qed.

(** When the schema trims, a property that every trimmed text that is not
    empty has is kept by the handlers for the texts of the collection. *)
Lemma handle_texts (sch : Schema) (engine : string -> option (string -> bool))
    (P : string -> Prop) (st : Store) (rq : Request) :
  text_trim sch = true ->
  (forall txt, Js.trim txt <> "" -> P (Js.trim txt)) ->
  Forall (fun d => P (text d)) st ->
  Forall (fun d => P (text d)) (snd (handle sch engine st rq)).
Proof.
  intros Ht HP Hst. destruct rq as [|now oid b|id|id b]; simpl.
  - exact Hst.
  - unfold post_todo. destruct (body_text b) as [txt|]; [|exact Hst].
    destruct (Js.truthy txt); simpl; [|exact Hst].
    unfold save, set_path_text. rewrite Ht. simpl.
    destruct (Js.truthy (Js.trim txt)) eqn:E; simpl; [|exact Hst].
    apply Forall_app. split; [exact Hst|]. constructor; [|constructor].
    simpl. apply HP. now apply JsFacts.truthy_true.
  - unfold delete_todo, findByIdAndDelete, cast_id.
    destruct (castObjectId id) as [oid|]; simpl; [|exact Hst].
    destruct (find_by_id oid st); simpl; now apply Forall_remove_by_id.
  - unfold patch_todo. destruct (body_text b) as [txt|]; [|exact Hst].
    destruct (Js.truthy txt); simpl; [|exact Hst].
    destruct (Js.truthy (Js.trim txt)) eqn:E; simpl; [|exact Hst].
    destruct (findOne_regex_ne _ _ _ _) as [[?|]|?]; simpl; try exact Hst.
    unfold findByIdAndUpdate, cast_id. rewrite set_path_text_trim.
    destruct (castObjectId id) as [oid|]; simpl; [|exact Hst].
    assert (Hup : Forall (fun d => P (text d))
              (update_by_id oid (fun d => set_text d (Js.trim txt)) st)).
    { apply Forall_update_by_id; [|exact Hst].
      intros x. simpl. apply HP. now apply JsFacts.truthy_true. }
    destruct (find_by_id oid st); simpl; exact Hup.
Qed.

Lemma run_texts (sch : Schema) (engine : string -> option (string -> bool))
    (P : string -> Prop) (rqs : list Request) (st : Store) :
  text_trim sch = true ->
  (forall txt, Js.trim txt <> "" -> P (Js.trim txt)) ->
  Forall (fun d => P (text d)) st ->
  Forall (fun d => P (text d)) (run sch engine rqs st).
Proof.
  intros Ht HP. revert st. induction rqs as [|rq rqs IH]; simpl; intros st Hst.
  - exact Hst.
  - apply IH. now apply handle_texts.
Qed.

(** The handlers keep blank texts out of the collection, when the schema
    trims. *)
Lemma run_nonblank (sch : Schema) (engine : string -> option (string -> bool))
    (rqs : list Request) (st : Store) :
  text_trim sch = true ->
  Forall nonblank st -> Forall nonblank (run sch engine rqs st).
Proof.
  intros Ht. apply (run_texts sch engine (fun s => Js.trim s <> "")); [exact Ht|].
  intros txt Hn. now rewrite JsFacts.trim_idem.
Qed.

(** And they keep the texts of the collection trimmed. *)
Lemma run_trimmed (sch : Schema) (engine : string -> option (string -> bool))
    (rqs : list Request) (st : Store) :
  text_trim sch = true ->
  Forall trimmed st -> Forall trimmed (run sch engine rqs st).
Proof.
  intros Ht. apply (run_texts sch engine (fun s => Js.trim s = s)); [exact Ht|].
  intros txt _. apply JsFacts.trim_idem.
Qed.

(** C5: for every text that is not blank, creating stores and returns an
    item whose text is the input trimmed; and every item of a collection
    that the API built from the empty one has a text that is not empty after
    trimming.  The trimming on creation is the schema's, taken from the
    spec. *)
Theorem create_stores_trimmed_text :
  (forall (now : Z) (oid : ObjectId) (st : Store) (txt : string),
      Js.trim txt <> "" ->
      post_todo TodoSchema now oid st (text_body txt)
      = (mkResponse 201 (Item (mkTodo oid (Js.trim txt) false now)),
         st ++ [mkTodo oid (Js.trim txt) false now]))
  /\ (forall (engine : string -> option (string -> bool)) (rqs : list Request),
         Forall (fun d => Js.trim (text d) <> "") (run TodoSchema engine rqs [])).
Proof.
  split.
  - intros now oid st txt Hn. now apply post_todo_saves.
  - intros engine rqs. now apply (run_nonblank TodoSchema).
Qed.

Lemma create_stores_trimmed_text_witness :
  Js.trim "  Buy milk " <> ""
  /\ post_todo TodoSchema 1700000000000 "507f1f77bcf86cd799439011" []
       (text_body "  Buy milk ")
     = (mkResponse 201
          (Item (mkTodo "507f1f77bcf86cd799439011" "Buy milk" false
                   1700000000000)),
        [mkTodo "507f1f77bcf86cd799439011" "Buy milk" false 1700000000000]).
Proof.
  split; [discriminate|].
  apply (proj1 create_stores_trimmed_text
           1700000000000%Z "507f1f77bcf86cd799439011" [] "  Buy milk ").
  discriminate.
Defined.

(** C2, as the code has it: an empty text is refused by the handler with
    400 and the message 'Text is required'; a blank text that is not empty
    passes the handler, is trimmed and refused by the store, and the answer
    is 400 with the store's message.  Either way the collection, and so the
    list read afterwards, is as before. *)
Theorem create_blank_rejected (sch : Schema) (now : Z) (oid : ObjectId)
    (st : Store) (txt : string) :
  text_trim sch = true -> Js.trim txt = "" ->
  post_todo sch now oid st (text_body txt)
  = (mkResponse 400
       (Message (if String.eqb txt "" then "Text is required"
                 else error_message sch ValidationError)), st)
  /\ get_todos (snd (post_todo sch now oid st (text_body txt))) = get_todos st.
Proof.
  intros Ht Hb.
  assert (H : post_todo sch now oid st (text_body txt)
              = (mkResponse 400
                   (Message (if String.eqb txt "" then "Text is required"
                             else error_message sch ValidationError)), st)).
  { destruct (String.eqb_spec txt "") as [->|Hn].
    - apply post_todo_empty.
    - now apply post_todo_blank. }
  split; [exact H|]. now rewrite H.
Qed.

Lemma create_blank_rejected_witness :
  post_todo TodoSchema 7 "507f1f77bcf86cd799439011" [] (text_body "   ")
  = (mkResponse 400
       (Message "Todo validation failed: text: Path `text` is required."), []).
Proof.
  apply (proj1 (create_blank_rejected TodoSchema 7 "507f1f77bcf86cd799439011"
                  [] "   " eq_refl eq_refl)).
Defined.

(** C2 as stated fails: three spaces are not answered with the message
    'Text is required'. *)
Lemma create_spaces_counterexample :
  fst (post_todo TodoSchema 7 "507f1f77bcf86cd799439011" [] (text_body "   "))
  <> mkResponse 400 (Message "Text is required").
Proof. apply post_todo_spaces. Qed.

(** ** Listing *)

Lemma post_todo_created (sch : Schema) (now : Z) (oid : ObjectId) (st : Store)
    (b : Body) (d : Todo) (st' : Store) :
  post_todo sch now oid st b = (mkResponse 201 (Item d), st') ->
  st' = st ++ [d] /\ createdAt d = now /\ _id d = oid.
Proof.
  unfold post_todo, save.
  destruct (body_text b) as [txt|]; [|discriminate].
  destruct (Js.truthy txt); simpl; [|discriminate].
  destruct (Js.truthy (set_path_text sch txt)); simpl; [|discriminate].
  intros H. inversion H; subst. now simpl.
Qed.

(** C6: reading the list answers with all the stored items, by decreasing
    [createdAt]; and after two creations, the second later than the first
    and the first not earlier than what was stored, the list starts with the
    second item followed by the first (on an empty collection it is exactly
    these two). *)
Theorem list_newest_first (sch : Schema) (st : Store) (t1 t2 : Z)
    (id1 id2 : ObjectId) (bA bB : Body) (a b : Todo) (s1 s2 : Store) :
  Forall (fun d => (createdAt d <= t1)%Z) st ->
  post_todo sch t1 id1 st bA = (mkResponse 201 (Item a), s1) ->
  post_todo sch t2 id2 s1 bB = (mkResponse 201 (Item b), s2) ->
  (t1 < t2)%Z ->
  (forall s : Store,
      get_todos s = (mkResponse 200 (Todos (find_sorted s)), s)
      /\ Permutation (find_sorted s) s
      /\ Sorted newer_first (find_sorted s))
  /\ get_todos s2 = (mkResponse 200 (Todos (b :: a :: find_sorted st)), s2).
Proof.
  intros Hst HA HB Hlt. split.
  - intros s. split; [reflexivity|].
    split; [apply find_sorted_perm | apply find_sorted_sorted].
  - apply post_todo_created in HA. destruct HA as (-> & Ha & _).
    apply post_todo_created in HB. destruct HB as (-> & Hb & _).
    unfold get_todos. rewrite <- app_assoc. simpl.
    rewrite find_sorted_two_newest; [reflexivity| |lia].
    now rewrite Ha.
Qed.

Lemma list_newest_first_witness :
  get_todos
    [mkTodo "507f1f77bcf86cd799439011" "A" false 1000;
     mkTodo "507f1f77bcf86cd799439012" "B" false 1001]
  = (mkResponse 200
       (Todos [mkTodo "507f1f77bcf86cd799439012" "B" false 1001;
               mkTodo "507f1f77bcf86cd799439011" "A" false 1000]),
     [mkTodo "507f1f77bcf86cd799439011" "A" false 1000;
      mkTodo "507f1f77bcf86cd799439012" "B" false 1001]).
Proof.
  apply (proj2 (list_newest_first TodoSchema [] 1000 1001
                  "507f1f77bcf86cd799439011" "507f1f77bcf86cd799439012"
                  (text_body "A") (text_body " B ") _ _ _ _
                  (Forall_nil _) eq_refl eq_refl eq_refl)).
Defined.

(** ** Deleting *)

Lemma delete_todo_cast (sch : Schema) (st : Store) (id : string)
    (oid : ObjectId) :
  castObjectId id = Some oid ->
  delete_todo sch st id
  = match find_by_id oid st with
    | Some _ =>
        (mkResponse 200 (Message "Todo deleted successfully"),
         remove_by_id oid st)
    | None => (mkResponse 404 (Message "Todo not found"), st)
    end.
Proof.
  intros Hc. unfold delete_todo, findByIdAndDelete, cast_id. rewrite Hc. simpl.
  destruct (find_by_id oid st) eqn:E; [reflexivity|].
  now rewrite remove_by_id_none.
Qed.

Lemma delete_todo_malformed (sch : Schema) (st : Store) (id : string) :
  castObjectId id = None ->
  delete_todo sch st id
  = (mkResponse 500 (Message (error_message sch (CastError id))), st).
Proof.
  intros Hc. unfold delete_todo, findByIdAndDelete, cast_id. now rewrite Hc.
Qed.

(** An item of the identifier is in the collection exactly when the lookup
    by identifier finds one. *)
Lemma find_by_id_some (oid : ObjectId) (st : Store) (d : Todo) :
  In d st -> _id d = oid ->
  exists d', find_by_id oid st = Some d' /\ In d' st /\ _id d' = oid.
Proof.
  intros Hin Hid. destruct (find_by_id oid st) as [d'|] eqn:E.
  - exists d'. split; [reflexivity|].
    split; [now apply (find_by_id_In oid)|now apply (find_by_id_id oid st)].
  - exfalso. now apply (proj1 (find_by_id_none oid st) E d Hin).
Qed.

(** Where the identifiers are distinct, an identifier names one item. *)
Lemma same_id_same_item (st : Store) (a b : Todo) :
  NoDup (map _id st) -> In a st -> In b st -> _id a = _id b -> a = b.
Proof.
  induction st as [|x st IH]; simpl; intros Hnd Ha Hb Hid; [contradiction|].
  inversion Hnd as [|? ? Hx Hst]; subst.
  destruct Ha as [->|Ha], Hb as [->|Hb].
  - reflexivity.
  - exfalso. apply Hx. rewrite Hid. now apply in_map.
  - exfalso. apply Hx. rewrite <- Hid. now apply in_map.
  - now apply IH.
Qed.

(** C8: when an item of the collection has the given identifier, deleting
    answers 200 with the message 'Todo deleted successfully' and takes one
    item of that identifier, the first, out of the collection, every other
    item staying where it is; with distinct identifiers that is the item
    itself and no item of the identifier is left.  When no item has the
    identifier the answer is 404 with 'Todo not found' and the collection,
    and the list read afterwards, are as before.  The identifier is one of
    the store's (it casts). *)
Theorem delete_by_id (sch : Schema) (st : Store) (id : string)
    (oid : ObjectId) :
  castObjectId id = Some oid ->
  (forall d : Todo,
      In d st -> _id d = oid ->
      fst (delete_todo sch st id)
      = mkResponse 200 (Message "Todo deleted successfully")
      /\ (exists l1 d' l2,
             st = l1 ++ d' :: l2 /\ _id d' = oid
             /\ (forall x, In x l1 -> _id x <> oid)
             /\ snd (delete_todo sch st id) = l1 ++ l2)
      /\ (NoDup (map _id st) ->
          (exists l1 l2,
              st = l1 ++ d :: l2 /\ snd (delete_todo sch st id) = l1 ++ l2)
          /\ (forall x, In x (snd (delete_todo sch st id)) -> _id x <> oid)))
  /\ ((forall d, In d st -> _id d <> oid) ->
      delete_todo sch st id = (mkResponse 404 (Message "Todo not found"), st)
      /\ get_todos (snd (delete_todo sch st id)) = get_todos st).
Proof.
  intros Hc. split.
  - intros d Hin Hid.
    destruct (find_by_id_some oid st d Hin Hid) as (d' & Hf & Hin' & Hid').
    rewrite (delete_todo_cast sch st id oid Hc), Hf. simpl.
    destruct (remove_by_id_split oid st d' Hf) as (l1 & l2 & Hst & Hrm & Hl1).
    split; [reflexivity|]. split.
    + exists l1, d', l2. repeat split; auto.
      now apply find_by_id_none.
    + intros Hnd. split.
      * assert (d' = d) as <-
          by (apply (same_id_same_item st); auto; congruence).
        now exists l1, l2.
      * apply find_by_id_none. now apply remove_by_id_gone.
  - intros Hno. apply find_by_id_none in Hno.
    rewrite (delete_todo_cast sch st id oid Hc), Hno. now split.
Qed.

Lemma delete_by_id_witness :
  fst (delete_todo TodoSchema
         [mkTodo "507f1f77bcf86cd799439011" "A" false 1000;
          mkTodo "507f1f77bcf86cd799439012" "B" false 1001;
          mkTodo "507f1f77bcf86cd799439013" "C" false 1002]
         "507F1F77BCF86CD799439012")
  = mkResponse 200 (Message "Todo deleted successfully")
  /\ snd (delete_todo TodoSchema
            [mkTodo "507f1f77bcf86cd799439011" "A" false 1000;
             mkTodo "507f1f77bcf86cd799439012" "B" false 1001;
             mkTodo "507f1f77bcf86cd799439013" "C" false 1002]
            "507F1F77BCF86CD799439012")
     = [mkTodo "507f1f77bcf86cd799439011" "A" false 1000;
        mkTodo "507f1f77bcf86cd799439013" "C" false 1002].
Proof.
  split; [|reflexivity].
  apply (proj1 (delete_by_id TodoSchema
                  [mkTodo "507f1f77bcf86cd799439011" "A" false 1000;
                   mkTodo "507f1f77bcf86cd799439012" "B" false 1001;
                   mkTodo "507f1f77bcf86cd799439013" "C" false 1002]
                  "507F1F77BCF86CD799439012" "507f1f77bcf86cd799439012"
                  eq_refl)
               (mkTodo "507f1f77bcf86cd799439012" "B" false 1001)).
  - right. left. reflexivity.
  - reflexivity.
Defined.

(** ** Updating *)

Lemma patch_todo_no_text (sch : Schema)
    (engine : string -> option (string -> bool)) (st : Store) (id : string)
    (c : option bool) :
  patch_todo sch engine st id (mkBody None c)
  = (mkResponse 400 (Message "Text is required"), st).
Proof. reflexivity. Qed.

Lemma patch_todo_blank (sch : Schema)
    (engine : string -> option (string -> bool)) (st : Store) (id : string)
    (txt : string) :
  Js.trim txt = "" ->
  patch_todo sch engine st id (text_body txt)
  = (mkResponse 400 (Message "Text is required"), st).
Proof.
  intros Hb. unfold patch_todo. simpl. rewrite Hb. simpl.
  now rewrite orb_true_r.
Qed.

(** The handler past its check of the text. *)
Lemma patch_todo_text (sch : Schema)
    (engine : string -> option (string -> bool)) (st : Store) (id : string)
    (txt : string) :
  Js.trim txt <> "" ->
  patch_todo sch engine st id (text_body txt)
  = match findOne_regex_ne engine ("^" ++ Js.trim txt ++ "$")%string id st with
    | Throw e => (caught sch 500 e, st)
    | Ok (Some _) => (mkResponse 400 (Message "Duplicate todo text"), st)
    | Ok None =>
        match castObjectId id with
        | None => (caught sch 500 (CastError id), st)
        | Some oid =>
            match find_by_id oid st with
            | None => (mkResponse 404 (Message "Todo not found"), st)
            | Some d =>
                (mkResponse 200 (Item (set_text d (Js.trim txt))),
                 update_by_id oid (fun x => set_text x (Js.trim txt)) st)
            end
        end
    end.
Proof.
  intros Hn. apply JsFacts.truthy_true in Hn.
  unfold patch_todo. simpl.
  rewrite Hn, (JsFacts.trim_truthy _ Hn). simpl.
  destruct (findOne_regex_ne _ _ _ _) as [[?|]|?]; try reflexivity.
  unfold findByIdAndUpdate, cast_id. rewrite set_path_text_trim.
  destruct (castObjectId id) as [oid|]; simpl; [|reflexivity].
  destruct (find_by_id oid st) eqn:E; simpl; [reflexivity|].
  now rewrite update_by_id_none.
Qed.

Lemma findOne_regex_ne_malformed
    (engine : string -> option (string -> bool)) (pattern id : string)
    (st : Store) :
  castObjectId id = None ->
  findOne_regex_ne engine pattern id st = Throw (CastError id).
Proof. intros Hc. unfold findOne_regex_ne, cast_id. now rewrite Hc. Qed.


(** What an answer 200 to an update tells. *)
Lemma patch_todo_ok (sch : Schema)
    (engine : string -> option (string -> bool)) (st : Store) (id : string)
    (b : Body) (r : Response) (st' : Store) :
  patch_todo sch engine st id b = (r, st') -> status r = 200 ->
  exists txt oid d,
    body_text b = Some txt /\ Js.trim txt <> ""
    /\ castObjectId id = Some oid /\ find_by_id oid st = Some d
    /\ findOne_regex_ne engine ("^" ++ Js.trim txt ++ "$")%string id st = Ok None
    /\ r = mkResponse 200 (Item (set_text d (Js.trim txt)))
    /\ st' = update_by_id oid (fun x => set_text x (Js.trim txt)) st.
Proof.
  destruct b as [[txt|] c]; intros H Hs.
  2:{ rewrite patch_todo_no_text in H. inversion H; subst. discriminate. }
  assert (Hsame : patch_todo sch engine st id (mkBody (Some txt) c)
                  = patch_todo sch engine st id (text_body txt)) by reflexivity.
  rewrite Hsame in H. clear Hsame.
  destruct (String.eqb_spec (Js.trim txt) "") as [Hb|Hn].
  { rewrite patch_todo_blank in H by exact Hb. inversion H; subst. discriminate. }
  rewrite patch_todo_text in H by exact Hn.
  destruct (findOne_regex_ne _ _ _ _) as [[?|]|?] eqn:Hq;
    try (inversion H; subst; discriminate).
  destruct (castObjectId id) as [oid|] eqn:Hc;
    [|inversion H; subst; discriminate].
  destruct (find_by_id oid st) as [d|] eqn:Hd;
    [|inversion H; subst; discriminate].
  inversion H; subst. exists txt, oid, d. repeat split; auto.
Qed.



(** ** Identifiers that do not cast, and identifiers of no item *)

(** C4, as the code has it: an identifier that does not cast makes a delete,
    and an update with a text that is not blank, answer 500 with the message
    of the cast error, the status of every store error; an identifier that
    casts and is the one of no item makes a delete answer 404 'Todo not
    found', and so does an update with a text that is not blank for which
    the duplicate query finds nothing.  The collection is as before in all
    four cases. *)
Theorem id_lookup_failures (sch : Schema)
    (engine : string -> option (string -> bool)) (st : Store) (id : string) :
  (castObjectId id = None ->
   delete_todo sch st id
   = (mkResponse 500 (Message (error_message sch (CastError id))), st)
   /\ (forall txt,
          Js.trim txt <> "" ->
          patch_todo sch engine st id (text_body txt)
          = (mkResponse 500 (Message (error_message sch (CastError id))), st)))
  /\ (forall oid,
         castObjectId id = Some oid ->
         (forall d, In d st -> _id d <> oid) ->
         delete_todo sch st id
         = (mkResponse 404 (Message "Todo not found"), st)
         /\ (forall txt,
                Js.trim txt <> "" ->
                findOne_regex_ne engine ("^" ++ Js.trim txt ++ "$")%string id st
                = Ok None ->
                patch_todo sch engine st id (text_body txt)
                = (mkResponse 404 (Message "Todo not found"), st))).
Proof.
  split.
  - intros Hc. split; [now apply delete_todo_malformed|].
    intros txt Hn. rewrite patch_todo_text by exact Hn.
    now rewrite findOne_regex_ne_malformed.
  - intros oid Hc Hno. apply find_by_id_none in Hno. split.
    + now rewrite (delete_todo_cast sch st id oid Hc), Hno.
    + intros txt Hn Hq. rewrite patch_todo_text by exact Hn.
      now rewrite Hq, Hc, Hno.
Qed.

Lemma id_lookup_failures_witness :
  delete_todo TodoSchema store_axb "42"
  = (mkResponse 500
       (Message (error_message TodoSchema (CastError "42"))), store_axb)
  /\ patch_todo TodoSchema Regex.caseless store_axb
       "507f1f77bcf86cd799439099" (text_body "tidy up")
     = (mkResponse 404 (Message "Todo not found"), store_axb).
Proof.
  split.
  - apply (proj1 (id_lookup_failures TodoSchema Regex.caseless store_axb "42")
             eq_refl).
  - refine (proj2 (proj2 (id_lookup_failures TodoSchema Regex.caseless
                            store_axb "507f1f77bcf86cd799439099")
                     "507f1f77bcf86cd799439099" eq_refl _)
              "tidy up" _ eq_refl).
    + intros d [<-|[<-|[]]]; discriminate.
    + discriminate.
Defined.

(** C4 as stated fails: an identifier that cannot be one of the store's is
    answered 500, which is not a client error and is the status of a store
    error (here, of a refused pattern). *)
Lemma malformed_id_counterexample :
  castObjectId "42" = None
  /\ status (fst (delete_todo TodoSchema store_axb "42")) = 500
  /\ is_client_error (fst (delete_todo TodoSchema store_axb "42")) = false
  /\ status (fst (patch_todo TodoSchema Regex.caseless store_axb "42"
                    (text_body "tidy up"))) = 500
  /\ status (fst (patch_todo TodoSchema Regex.caseless store_axb idB
                    (text_body "(")))
     = status (fst (delete_todo TodoSchema store_axb "42")).
Proof. repeat split. Qed.

(** ** Updates that carry no text *)

(** C1, which the code does not meet: an update whose body carries only
    [completed] is answered 400 'Text is required' whatever the identifier,
    the collection is as before, and the client, which sends such a body,
    returns that message and leaves its list as it was. *)
Theorem completed_only_is_refused (sch : Schema)
    (engine : string -> option (string -> bool)) (st : Store) (id : string)
    (c : bool) :
  patch_todo sch engine st id (completed_body c)
  = (mkResponse 400 (Message "Text is required"), st)
  /\ (forall w : World,
         editTodo sch engine id None (Some c) w = (Some "Text is required", w)).
Proof.
  split; [reflexivity|]. intros [srv l]. reflexivity.
Qed.

(** ** The duplicate check *)

(** *** Patterns of plain texts *)

Module RegexFacts.
Import Regex.

Lemma parse_plain_char (c : ascii) (cs : list ascii) (top : frame)
    (stack : list frame) :
  plain_char c = true ->
  parse (c :: cs) false top stack = parse cs false (push top (RChar c) true) stack.
Proof.
  destruct c as [b0 b1 b2 b3 b4 b5 b6 b7].
  destruct b0, b1, b2, b3, b4, b5, b6, b7; intros H;
    try (cbv in H; discriminate H); reflexivity.
Qed.

Lemma parse_plain (cs rest : list ascii) (top : frame) (stack : list frame) :
  forallb plain_char cs = true ->
  parse (cs ++ rest) false top stack = parse rest false (push_chars cs top) stack.
Proof.
  revert top. induction cs as [|c cs IH]; intros top H; [reflexivity|].
  simpl in H. apply andb_true_iff in H. destruct H as [Hc Hcs].
  simpl app. rewrite parse_plain_char by exact Hc. now rewrite IH.
Qed.

Lemma push_chars_alts (cs : list ascii) (top : frame) :
  alts (push_chars cs top) = alts top.
Proof.
  revert top. induction cs as [|c cs IH]; intros top; [reflexivity|].
  simpl. unfold push_chars in IH. now rewrite IH.
Qed.

Lemma push_chars_cur (cs : list ascii) (top : frame) :
  cur (push_chars cs top) = rev (map (fun c => (RChar c, true)) cs) ++ cur top.
Proof.
  revert top. induction cs as [|c cs IH]; intros top; [reflexivity|].
  simpl. unfold push_chars in IH. rewrite IH. simpl. now rewrite <- app_assoc.
Qed.

Lemma list_ascii_append (a b : string) :
  list_ascii_of_string (a ++ b)%string
  = list_ascii_of_string a ++ list_ascii_of_string b.
Proof. induction a as [|c a IH]; simpl; [reflexivity|]. now rewrite IH. Qed.

Lemma plain_forallb (t : string) :
  plain t = forallb plain_char (list_ascii_of_string t).
Proof. induction t as [|c t IH]; simpl; [reflexivity|]. now rewrite IH. Qed.

Lemma compile_plain (t : string) :
  plain t = true -> compile ("^" ++ t ++ "$")%string = Some (literal t).
Proof.
  intros Hp. unfold compile. simpl. rewrite list_ascii_append.
  rewrite parse_plain by (now rewrite <- plain_forallb).
  simpl. f_equal. unfold close, literal. simpl.
  rewrite push_chars_alts, push_chars_cur. simpl.
  unfold seq_of. simpl. rewrite fold_left_app. simpl. f_equal.
  rewrite <- fold_left_rev_right. rewrite rev_involutive.
  induction (list_ascii_of_string t) as [|c cs IH]; simpl; [reflexivity|].
  now rewrite IH.
Qed.

Lemma ends_chars (cs : list ascii) (tl : regex) (n : nat) (k : list ascii) :
  ends (fold_right (fun c acc => RSeq (RChar c) acc) tl cs) n k
  = match strip_ci cs k with
    | Some k2 => ends tl n k2
    | None => []
    end.
Proof.
  revert k. induction cs as [|c cs IH]; intros k; [reflexivity|].
  simpl. destruct k as [|x k]; [reflexivity|].
  destruct (Ascii.eqb (Js.lower_char c) (Js.lower_char x)); [|reflexivity].
  simpl. rewrite app_nil_r. apply IH.
Qed.

Lemma ends_eol (n : nat) (k : list ascii) :
  ends (RSeq REol REmpty) n k = if at_end k then [k] else [].
Proof.
  destruct k as [|x [|y k]]; simpl; try reflexivity.
  now destruct (Ascii.eqb x newline).
Qed.

Lemma matches_literal (t : string) (n : nat) (k : list ascii) :
  matches_at (literal t) n k = (length k =? n) && literal_at t k.
Proof.
  unfold matches_at, literal, literal_at. simpl.
  destruct (length k =? n); simpl; [|reflexivity].
  rewrite app_nil_r, ends_chars.
  destruct (strip_ci _ k) as [k2|]; [|reflexivity].
  rewrite ends_eol. now destruct (at_end k2).
Qed.

Lemma search_from_later (t : string) (n : nat) (k : list ascii) :
  length k < n -> search_from (literal t) n k = false.
Proof.
  induction k as [|x k IH]; simpl search_from; intros Hl;
    rewrite matches_literal.
  - replace (length [] =? n) with false; [reflexivity|].
    symmetry. apply Nat.eqb_neq. simpl in *. lia.
  - replace (length (x :: k) =? n) with false
      by (symmetry; apply Nat.eqb_neq; lia).
    simpl in Hl. rewrite IH by lia. reflexivity.
Qed.

Lemma search_literal (t s : string) :
  search (literal t) s = literal_at t (list_ascii_of_string s).
Proof.
  unfold search. destruct (list_ascii_of_string s) as [|x k] eqn:E.
  - simpl search_from. rewrite matches_literal. simpl. now rewrite orb_false_r.
  - simpl search_from. rewrite matches_literal, Nat.eqb_refl.
    rewrite search_from_later by (simpl; lia).
    simpl. now rewrite orb_false_r.
Qed.

Lemma lower_char_newline (x : ascii) :
  Ascii.eqb (Js.lower_char x) newline = Ascii.eqb x newline.
Proof.
  destruct x as [b0 b1 b2 b3 b4 b5 b6 b7].
  destruct b0, b1, b2, b3, b4, b5, b6, b7; reflexivity.
Qed.

Lemma literal_at_eq_ci (t s : string) :
  literal_at t (list_ascii_of_string s)
  = Js.eq_ci s t || Js.eq_ci s (t ++ nl)%string.
Proof.
  unfold literal_at, Js.eq_ci. revert s.
  induction t as [|c t IH]; intros s.
  - simpl. destruct s as [|x [|y s]]; simpl; try reflexivity.
    + rewrite lower_char_newline. now destruct (Ascii.eqb x newline).
    + now destruct (Ascii.eqb (Js.lower_char x) (Js.lower_char newline)).
  - destruct s as [|x s]; [reflexivity|]. simpl.
    rewrite (Ascii.eqb_sym (Js.lower_char x)).
    destruct (Ascii.eqb (Js.lower_char c) (Js.lower_char x)); [apply IH|reflexivity].
Qed.

(** The pattern made of a text without metacharacters tests the equality
    with that text up to case, a line feed at the end of the subject being
    left aside. *)
Lemma caseless_plain (t : string) :
  plain t = true ->
  exists test,
    caseless ("^" ++ t ++ "$")%string = Some test
    /\ forall s, test s = Js.eq_ci s t || Js.eq_ci s (t ++ nl)%string.
Proof.
  intros Hp. exists (search (literal t)). split.
  - unfold caseless. now rewrite compile_plain.
  - intros s. now rewrite search_literal, literal_at_eq_ci.
Qed.

Lemma eq_ci_nl_ends_space (t s : string) :
  Js.eq_ci s (t ++ nl)%string = true -> Js.ends_space s = true.
Proof.
  unfold Js.eq_ci. revert s. induction t as [|c t IH]; intros s.
  - destruct s as [|x [|y s]]; simpl; try discriminate.
    + destruct (Ascii.eqb_spec (Js.lower_char x) (Js.lower_char newline)) as [E|E];
        [|discriminate].
      intros _. pose proof (lower_char_newline x) as H.
      change (Js.lower_char newline) with newline in E.
      rewrite E, Ascii.eqb_refl in H. symmetry in H.
      apply Ascii.eqb_eq in H. now subst x.
    + now destruct (Ascii.eqb (Js.lower_char x) (Js.lower_char newline)).
  - destruct s as [|x s]; simpl; [discriminate|].
    destruct (Ascii.eqb (Js.lower_char x) (Js.lower_char c)); [|discriminate].
    intros H. specialize (IH s H). destruct s; [discriminate|exact IH].
Qed.

Lemma eq_ci_nl_trimmed (t s : string) :
  Js.trim s = s -> Js.eq_ci s (t ++ nl)%string = false.
Proof.
  intros H. destruct (Js.eq_ci s (t ++ nl)%string) eqn:E; [|reflexivity].
  apply eq_ci_nl_ends_space in E. now rewrite (JsFacts.trimmed_no_space s H) in E.
Qed.

End RegexFacts.

Lemma find_ext_in {A} (f g : A -> bool) (l : list A) :
  (forall x, In x l -> f x = g x) -> find f l = find g l.
Proof.
  induction l as [|x l IH]; intros H; [reflexivity|]. simpl.
  rewrite (H x) by now left. destruct (g x); [reflexivity|].
  apply IH. intros y Hy. apply H. now right.
Qed.

(** On texts without metacharacters, and a collection of trimmed texts, the
    duplicate query is the comparison up to case that the handler means. *)
Lemma duplicate_query_plain (t : string) (id : string) (oid : ObjectId)
    (st : Store) :
  Regex.plain t = true -> castObjectId id = Some oid -> Forall trimmed st ->
  findOne_regex_ne Regex.caseless ("^" ++ t ++ "$")%string id st
  = Ok (find_duplicate t oid st).
Proof.
  intros Hp Hc Hst. unfold findOne_regex_ne, cast_id. rewrite Hc. unfold bind.
  destruct (RegexFacts.caseless_plain t Hp) as (test & -> & Htest).
  f_equal. apply find_ext_in. intros d Hd.
  rewrite Htest. rewrite Forall_forall in Hst.
  now rewrite (RegexFacts.eq_ci_nl_trimmed t (text d) (Hst d Hd)), orb_false_r.
Qed.

(** An update with a text without metacharacters, on a collection of
    trimmed texts: it is refused exactly when another item has that text up
    to case. *)
Lemma patch_todo_plain (sch : Schema) (st : Store) (id : string)
    (oid : ObjectId) (txt : string) :
  Regex.plain (Js.trim txt) = true -> Js.trim txt <> "" ->
  castObjectId id = Some oid -> Forall trimmed st ->
  patch_todo sch Regex.caseless st id (text_body txt)
  = match find_duplicate (Js.trim txt) oid st with
    | Some _ => (mkResponse 400 (Message "Duplicate todo text"), st)
    | None =>
        match find_by_id oid st with
        | None => (mkResponse 404 (Message "Todo not found"), st)
        | Some d =>
            (mkResponse 200 (Item (set_text d (Js.trim txt))),
             update_by_id oid (fun x => set_text x (Js.trim txt)) st)
        end
    end.
Proof.
  intros Hp Hn Hc Hst. rewrite patch_todo_text by exact Hn.
  rewrite (duplicate_query_plain _ id oid st Hp Hc Hst), Hc.
  reflexivity.
Qed.

(** So a duplicate in plain letters is refused, and the collection is as
    before. *)
Lemma duplicate_plain_refused (sch : Schema) (st : Store) (id : string)
    (oid : ObjectId) (txt : string) (d : Todo) :
  Regex.plain (Js.trim txt) = true -> Js.trim txt <> "" ->
  castObjectId id = Some oid -> Forall trimmed st ->
  In d st -> _id d <> oid -> Js.eq_ci (text d) (Js.trim txt) = true ->
  patch_todo sch Regex.caseless st id (text_body txt)
  = (mkResponse 400 (Message "Duplicate todo text"), st).
Proof.
  intros Hp Hn Hc Hst Hd Hid He.
  rewrite (patch_todo_plain sch st id oid txt Hp Hn Hc Hst).
  destruct (find_duplicate (Js.trim txt) oid st) eqn:E; [reflexivity|].
  exfalso. unfold find_duplicate in E.
  apply (find_none _ _ E) in Hd. rewrite He in Hd. simpl in Hd.
  apply negb_false_iff, String.eqb_eq in Hd. contradiction.
Qed.

(** C3, which the code does not meet: with an item "a+b" stored, changing
    the text of another item to "a+b" is not refused.  The pattern [^a+b$]
    does not match the text "a+b", the update is answered 200 and two items
    have the same text afterwards. *)
Theorem duplicate_with_metacharacter_accepted :
  Js.eq_ci (text (mkTodo idA "a+b" false 1000)) (Js.trim "a+b") = true
  /\ Regex.caseless "^a+b$" = Some (Regex.search
       (Regex.RSeq Regex.RBol
          (Regex.RSeq (Regex.RPlus (Regex.RChar "a"))
             (Regex.RSeq (Regex.RChar "b") (Regex.RSeq Regex.REol Regex.REmpty)))))
  /\ patch_todo TodoSchema Regex.caseless store_plus idB (text_body "a+b")
     = (mkResponse 200 (Item (mkTodo idB "a+b" false 1001)),
        [mkTodo idA "a+b" false 1000; mkTodo idB "a+b" false 1001]).
Proof. repeat split. Qed.

(** C9: the trimmed text goes into the pattern as it is, so that a text
    with a metacharacter can be refused as a duplicate of a text it is not
    equal to: with "axb" stored, the new text "a.b" for another item is
    answered 400 'Duplicate todo text', while no other item has a text equal
    to "a.b" up to case. *)
Theorem unescaped_pattern_false_duplicate :
  (forall d, In d store_axb -> _id d <> idB ->
             Js.eq_ci (text d) (Js.trim "a.b") = false)
  /\ findOne_regex_ne Regex.caseless ("^" ++ Js.trim "a.b" ++ "$")%string idB
       store_axb
     = Ok (Some (mkTodo idA "axb" false 1000))
  /\ patch_todo TodoSchema Regex.caseless store_axb idB (text_body "a.b")
     = (mkResponse 400 (Message "Duplicate todo text"), store_axb).
Proof.
  split; [|split; reflexivity].
  intros d [<-|[<-|[]]] Hid; [reflexivity|]. now elim Hid.
Qed.

(** ** The client's copy after an edit *)

Lemma patch_todo_resolves (sch : Schema)
    (engine : string -> option (string -> bool)) (st : Store) (id : string)
    (b : Body) (r : Response) (st' : Store) :
  patch_todo sch engine st id b = (r, st') -> resolves r = true ->
  status r = 200.
Proof.
  unfold patch_todo.
  destruct (body_text b) as [txt|];
    [|intros H; inversion H; subst; discriminate].
  destruct (negb (Js.truthy txt) || negb (Js.truthy (Js.trim txt)));
    [intros H; inversion H; subst; discriminate|].
  destruct (findOne_regex_ne _ _ _ _) as [[?|]|?];
    try (intros H; inversion H; subst; discriminate).
  destruct (findByIdAndUpdate _ _ _ _) as [[[?|] ?]|?];
    intros H; inversion H; subst; try discriminate.
  reflexivity.
Qed.

Lemma map_patched_text (id : string) (txt : string) (l : list Todo) (t : Todo) :
  In t (map (fun todo => if String.eqb (_id todo) id then set_text todo txt
                         else todo) l) ->
  _id t = id -> text t = txt.
Proof.
  intros Hin Hid. apply in_map_iff in Hin. destruct Hin as (t0 & Ht & _).
  destruct (String.eqb_spec (_id t0) id) as [E|E]; subst t.
  - reflexivity.
  - contradiction.
Qed.

(** C10: when an edit of the text succeeds, the client puts the text as it
    was given into its list while the server stored it trimmed; so for a text
    with white space around it the client's copy of the item differs from the
    stored item, until the list is fetched again. *)
Theorem edit_leaves_untrimmed_copy (sch : Schema)
    (engine : string -> option (string -> bool)) (id : string)
    (oid : ObjectId) (txt : string) (cmp : option bool) (w w' : World) :
  castObjectId id = Some oid ->
  Js.trim txt <> "" -> Js.trim txt <> txt ->
  editTodo sch engine id (Some txt) cmp w = (None, w') ->
  (exists d, find_by_id oid (server w') = Some d /\ text d = Js.trim txt)
  /\ (forall t0, In t0 (todos w) -> _id t0 = id ->
                 In (set_text t0 txt) (todos w'))
  /\ (forall t d, In t (todos w') -> _id t = id ->
                  find_by_id oid (server w') = Some d ->
                  text t = txt /\ text d = Js.trim txt /\ text t <> text d)
  /\ todos (fetchTodos w') = find_sorted (server w').
Proof.
  intros Hc Hn Hws. unfold editTodo, meaningful_text.
  destruct (String.eqb_spec (Js.trim txt) "") as [E|_]; [contradiction|].
  unfold patch_then_map.
  destruct (patch_todo sch engine (server w) id (text_body txt))
    as [r srv] eqn:Hp.
  destruct (resolves r) eqn:Hr; [|discriminate].
  intros H. inversion H; subst w'. clear H. simpl.
  pose proof (patch_todo_resolves _ _ _ _ _ _ _ Hp Hr) as Hs.
  destruct (patch_todo_ok _ _ _ _ _ _ _ Hp Hs)
    as (txt' & oid' & d & Ht & _ & Hc' & Hd & _ & _ & ->).
  simpl in Ht. inversion Ht; subst txt'.
  rewrite Hc in Hc'. inversion Hc'; subst oid'.
  assert (Hfind : find_by_id oid
            (update_by_id oid (fun x => set_text x (Js.trim txt)) (server w))
          = Some (set_text d (Js.trim txt)))
    by now apply (update_by_id_find oid (fun x => set_text x (Js.trim txt))).
  split; [now exists (set_text d (Js.trim txt))|].
  split.
  { intros t0 Hin Hid. apply in_map_iff. exists t0. split; [|exact Hin].
    rewrite Hid. now rewrite String.eqb_refl. }
  split; [|reflexivity].
  intros t d' Hin Hid Hd'. rewrite Hfind in Hd'. inversion Hd'; subst d'.
  pose proof (map_patched_text id txt _ t Hin Hid) as Htxt.
  split; [exact Htxt|]. split; [reflexivity|].
  rewrite Htxt. simpl. congruence.
Qed.

Lemma edit_leaves_untrimmed_copy_witness :
  In (mkTodo idB " call home " false 1001)
     (todos (snd (editTodo TodoSchema Regex.caseless idB (Some " call home ")
                    None (mkWorld store_axb (find_sorted store_axb)))))
  /\ find_by_id idB
       (server (snd (editTodo TodoSchema Regex.caseless idB
                       (Some " call home ") None
                       (mkWorld store_axb (find_sorted store_axb)))))
     = Some (mkTodo idB "call home" false 1001).
Proof.
  split.
  - apply (proj1 (proj2 (edit_leaves_untrimmed_copy TodoSchema Regex.caseless
                           idB idB " call home " None
                           (mkWorld store_axb (find_sorted store_axb)) _
                           eq_refl
                           ltac:(discriminate) ltac:(discriminate) eq_refl))
             (mkTodo idB "draft" false 1001)).
    + left. reflexivity.
    + reflexivity.
  - reflexivity.
Defined.

(** * Further properties of the handlers *)

Lemma map_update_by_id {B : Type} (g : Todo -> B) (oid : ObjectId)
    (f : Todo -> Todo) (st : Store) :
  (forall x, g (f x) = g x) -> map g (update_by_id oid f st) = map g st.
Proof.
  intros Hf. induction st as [|x st IH]; simpl; [reflexivity|].
  destruct (String.eqb (_id x) oid); simpl; [now rewrite Hf|now rewrite IH].
Qed.

Lemma find_by_id_app_new (oid : ObjectId) (st : Store) (d : Todo) :
  find_by_id oid st = None -> _id d = oid ->
  find_by_id oid (st ++ [d]) = Some d /\ remove_by_id oid (st ++ [d]) = st.
Proof.
  intros Hn Hd. induction st as [|x st IH]; simpl in *.
  - rewrite Hd, String.eqb_refl. now split.
  - destruct (String.eqb (_id x) oid); [discriminate|].
    destruct (IH Hn) as [H1 H2]. now rewrite H1, H2.
Qed.

Lemma remove_by_id_NoDup (oid : ObjectId) (st : Store) :
  NoDup (map _id st) -> NoDup (map _id (remove_by_id oid st)).
Proof.
  induction st as [|x st IH]; simpl; intros Hnd; [constructor|].
  inversion Hnd as [|? ? Hx Hst]; subst.
  destruct (String.eqb (_id x) oid); [exact Hst|]. simpl.
  constructor; [|now apply IH].
  intros Hin. apply Hx. apply in_map_iff in Hin.
  destruct Hin as (y & Hy & Hin). apply in_map_iff. exists y. split; [exact Hy|].
  clear -Hin. induction st as [|z st IH]; simpl in *; [contradiction|].
  destruct (String.eqb (_id z) oid); [now right|].
  destruct Hin as [->|Hin]; [now left|right; now apply IH].
Qed.

(** The store after a request that was not answered 200. *)
Lemma patch_todo_refused (sch : Schema)
    (engine : string -> option (string -> bool)) (st : Store) (id : string)
    (b : Body) :
  status (fst (patch_todo sch engine st id b)) <> 200 ->
  snd (patch_todo sch engine st id b) = st.
Proof.
  destruct b as [[txt|] c]; [|reflexivity].
  assert (Hsame : patch_todo sch engine st id (mkBody (Some txt) c)
                  = patch_todo sch engine st id (text_body txt)) by reflexivity.
  rewrite Hsame. clear Hsame.
  destruct (String.eqb_spec (Js.trim txt) "") as [Hb|Hn].
  { now rewrite patch_todo_blank. }
  rewrite patch_todo_text by exact Hn.
  destruct (findOne_regex_ne _ _ _ _) as [[?|]|?]; try reflexivity.
  destruct (castObjectId id) as [oid|]; [|reflexivity].
  destruct (find_by_id oid st); [|reflexivity].
  simpl. intros H. now elim H.
Qed.

(** X1: a request that is not answered with a status from 200 to 299 leaves
    the collection as it was; this holds for every handler and every
    request, whatever the schema and the engine. *)
Theorem refusal_keeps_store (sch : Schema)
    (engine : string -> option (string -> bool)) (st : Store) (rq : Request) :
  resolves (fst (handle sch engine st rq)) = false ->
  snd (handle sch engine st rq) = st.
Proof.
  destruct rq as [|now oid b|id|id b]; simpl.
  - reflexivity.
  - unfold post_todo. destruct (body_text b) as [txt|]; [|reflexivity].
    destruct (Js.truthy txt); simpl; [|reflexivity].
    destruct (save sch now oid txt st) as [[d st']|e]; simpl; [|reflexivity].
    discriminate.
  - destruct (castObjectId id) as [oid|] eqn:Hc.
    + rewrite (delete_todo_cast sch st id oid Hc).
      destruct (find_by_id oid st); simpl; [discriminate|reflexivity].
    + now rewrite (delete_todo_malformed sch st id Hc).
  - intros Hr. apply patch_todo_refused. intros Hs.
    unfold resolves in Hr. now rewrite Hs in Hr.
Qed.

Lemma refusal_keeps_store_witness :
  snd (handle TodoSchema Regex.caseless store_axb
         (PatchTodo idB (text_body "AXB")))
  = store_axb.
Proof.
  apply (refusal_keeps_store TodoSchema Regex.caseless store_axb
           (PatchTodo idB (text_body "AXB")) eq_refl).
Defined.

Lemma patch_todo_ids (sch : Schema)
    (engine : string -> option (string -> bool)) (st : Store) (id : string)
    (b : Body) :
  map _id (snd (patch_todo sch engine st id b)) = map _id st.
Proof.
  destruct (Nat.eq_dec (status (fst (patch_todo sch engine st id b))) 200)
    as [Hs|Hs].
  - destruct (patch_todo sch engine st id b) as [r st'] eqn:Hp. simpl in *.
    destruct (patch_todo_ok _ _ _ _ _ _ _ Hp Hs)
      as (txt & oid & d & _ & _ & _ & _ & _ & _ & ->).
    now apply map_update_by_id.
  - now rewrite (patch_todo_refused _ _ _ _ _ Hs).
Qed.

(** X2: whatever it answers, an update changes no identifier, no creation
    time, no [completed] flag and not the number or the order of the items:
    the text of one item is all it can change. *)
Theorem update_touches_only_text (sch : Schema)
    (engine : string -> option (string -> bool)) (st : Store) (id : string)
    (b : Body) :
  map _id (snd (patch_todo sch engine st id b)) = map _id st
  /\ map createdAt (snd (patch_todo sch engine st id b)) = map createdAt st
  /\ map completed (snd (patch_todo sch engine st id b)) = map completed st
  /\ (forall oid,
         castObjectId id = Some oid ->
         filter (fun d => negb (String.eqb (_id d) oid))
           (snd (patch_todo sch engine st id b))
         = filter (fun d => negb (String.eqb (_id d) oid)) st).
Proof.
  destruct (Nat.eq_dec (status (fst (patch_todo sch engine st id b))) 200)
    as [Hs|Hs].
  - destruct (patch_todo sch engine st id b) as [r st'] eqn:Hp. simpl in *.
    destruct (patch_todo_ok _ _ _ _ _ _ _ Hp Hs)
      as (txt & oid & d & _ & _ & Hc & _ & _ & _ & ->).
    repeat split; try (now apply map_update_by_id).
    intros oid' Hc'. rewrite Hc in Hc'. inversion Hc'; subst oid'.
    clear. induction st as [|x st IH]; simpl; [reflexivity|].
    destruct (String.eqb (_id x) oid) eqn:E; simpl; rewrite E; simpl.
    + reflexivity.
    + now rewrite IH.
  - rewrite (patch_todo_refused _ _ _ _ _ Hs). now repeat split.
Qed.

Lemma update_touches_only_text_witness :
  filter (fun d => negb (String.eqb (_id d) idB))
    (snd (patch_todo TodoSchema Regex.caseless store_axb idB
            (text_body "call home")))
  = [mkTodo idA "axb" false 1000].
Proof.
  apply (proj2 (proj2 (proj2
           (update_touches_only_text TodoSchema Regex.caseless store_axb idB
              (text_body "call home")))) idB eq_refl).
Defined.

(** X3: creating an item and then deleting it by the identifier it was
    given puts the collection back as it was, when that identifier was new
    to the collection. *)
Theorem create_then_delete (sch : Schema) (now : Z) (oid : ObjectId)
    (st : Store) (b : Body) (d : Todo) (st1 : Store) :
  castObjectId oid = Some oid ->
  (forall x, In x st -> _id x <> oid) ->
  post_todo sch now oid st b = (mkResponse 201 (Item d), st1) ->
  delete_todo sch st1 oid
  = (mkResponse 200 (Message "Todo deleted successfully"), st).
Proof.
  intros Hc Hnew Hp. apply find_by_id_none in Hnew.
  apply post_todo_created in Hp. destruct Hp as (-> & _ & Hid).
  destruct (find_by_id_app_new oid st d Hnew Hid) as [Hf Hr].
  now rewrite (delete_todo_cast sch _ oid oid Hc), Hf, Hr.
Qed.

Lemma create_then_delete_witness :
  delete_todo TodoSchema
    (snd (post_todo TodoSchema 1002 "507f1f77bcf86cd799439013" store_axb
            (text_body " water the plants ")))
    "507f1f77bcf86cd799439013"
  = (mkResponse 200 (Message "Todo deleted successfully"), store_axb).
Proof.
  apply (create_then_delete TodoSchema 1002 "507f1f77bcf86cd799439013"
           store_axb (text_body " water the plants ")
           (mkTodo "507f1f77bcf86cd799439013" "water the plants" false 1002)
           (store_axb
            ++ [mkTodo "507f1f77bcf86cd799439013" "water the plants" false
                  1002])
           eq_refl).
  - intros x [<-|[<-|[]]]; discriminate.
  - reflexivity.
Defined.

(** X4: deleting the same identifier a second time is answered 404 'Todo
    not found' and changes nothing, in a collection without two items of one
    identifier. *)
Theorem delete_twice (sch : Schema) (st : Store) (id : string)
    (oid : ObjectId) :
  castObjectId id = Some oid -> NoDup (map _id st) ->
  delete_todo sch (snd (delete_todo sch st id)) id
  = (mkResponse 404 (Message "Todo not found"), snd (delete_todo sch st id)).
Proof.
  intros Hc Hnd. rewrite (delete_todo_cast sch st id oid Hc).
  destruct (find_by_id oid st) eqn:E; simpl.
  - rewrite (delete_todo_cast sch _ id oid Hc).
    now rewrite (remove_by_id_gone oid st Hnd).
  - now rewrite (delete_todo_cast sch st id oid Hc), E.
Qed.

Lemma delete_twice_witness :
  delete_todo TodoSchema (snd (delete_todo TodoSchema store_axb idA)) idA
  = (mkResponse 404 (Message "Todo not found"),
     [mkTodo idB "draft" false 1001]).
Proof.
  apply (delete_twice TodoSchema store_axb idA idA eq_refl).
  repeat constructor; simpl; intuition discriminate.
Defined.

(** X5: the handlers never put two items of one identifier into the
    collection: an update and a delete keep the identifiers distinct, and so
    does a creation whose generated identifier is new. *)
Theorem handlers_keep_ids_distinct (sch : Schema)
    (engine : string -> option (string -> bool)) (st : Store) (rq : Request) :
  NoDup (map _id st) ->
  (forall now oid b, rq = PostTodo now oid b ->
                     forall x, In x st -> _id x <> oid) ->
  NoDup (map _id (snd (handle sch engine st rq))).
Proof.
  intros Hnd Hnew. destruct rq as [|now oid b|id|id b]; simpl.
  - exact Hnd.
  - specialize (Hnew now oid b eq_refl).
    destruct (post_todo sch now oid st b) as [r st'] eqn:Hp.
    unfold post_todo in Hp. destruct (body_text b) as [txt|];
      [|inversion Hp; subst; exact Hnd].
    destruct (Js.truthy txt); simpl in Hp; [|inversion Hp; subst; exact Hnd].
    unfold save in Hp.
    destruct (Js.truthy _); simpl in Hp; inversion Hp; subst; [|exact Hnd].
    simpl. rewrite map_app. simpl.
    apply NoDup_app; [exact Hnd|repeat constructor; intros []|].
    intros a Ha [<-|[]]. apply in_map_iff in Ha.
    destruct Ha as (x & Hx & Hin). now apply (Hnew x Hin).
  - destruct (castObjectId id) as [oid|] eqn:Hc.
    + rewrite (delete_todo_cast sch st id oid Hc).
      destruct (find_by_id oid st); simpl; [|exact Hnd].
      now apply remove_by_id_NoDup.
    + now rewrite (delete_todo_malformed sch st id Hc).
  - now rewrite patch_todo_ids.
Qed.

Lemma handlers_keep_ids_distinct_witness :
  NoDup (map _id
           (snd (handle TodoSchema Regex.caseless store_axb
                   (PostTodo 1002 "507f1f77bcf86cd799439013"
                      (text_body "water the plants"))))).
Proof.
  apply (handlers_keep_ids_distinct TodoSchema Regex.caseless store_axb).
  - repeat constructor; simpl; intuition discriminate.
  - intros now oid b H x Hx. inversion H; subst.
    destruct Hx as [<-|[<-|[]]]; discriminate.
Defined.

(** ** Updates with plain and with unbalanced texts *)

Module ParenFacts.
Import Regex.

(** A closing parenthesis that closes nothing, after plain characters. *)
Lemma compile_unmatched_close (t1 rest : string) :
  plain t1 = true -> compile ("^" ++ t1 ++ ")" ++ rest)%string = None.
Proof.
  intros Hp. unfold compile. simpl. rewrite RegexFacts.list_ascii_append.
  rewrite RegexFacts.parse_plain by (now rewrite <- RegexFacts.plain_forallb).
  reflexivity.
Qed.

(** An opening parenthesis that nothing closes, among plain characters. *)
Lemma compile_unclosed_open (t1 t2 : string) :
  plain t1 = true -> plain t2 = true ->
  compile ("^" ++ t1 ++ "(" ++ t2 ++ "$")%string = None.
Proof.
  intros H1 H2. unfold compile. simpl. rewrite RegexFacts.list_ascii_append.
  rewrite RegexFacts.parse_plain by (now rewrite <- RegexFacts.plain_forallb).
  simpl. rewrite RegexFacts.list_ascii_append.
  rewrite RegexFacts.parse_plain by (now rewrite <- RegexFacts.plain_forallb).
  reflexivity.
Qed.

Lemma append_assoc (a b c : string) :
  ((a ++ b) ++ c)%string = (a ++ b ++ c)%string.
Proof. induction a as [|x a IH]; simpl; [reflexivity|]. now rewrite IH. Qed.

Lemma append_nonempty (a b : string) :
  b <> EmptyString -> (a ++ b)%string <> EmptyString.
Proof. destruct a; simpl; [auto|discriminate]. Qed.

End ParenFacts.

(** X6: for a text without metacharacters, on a collection of trimmed
    texts, an update is refused as a duplicate exactly when an item with
    another identifier has that text up to the case of its letters. *)
Theorem plain_update_refused_iff (sch : Schema) (st : Store) (id : string)
    (oid : ObjectId) (txt : string) :
  Regex.plain (Js.trim txt) = true -> Js.trim txt <> "" ->
  castObjectId id = Some oid -> Forall trimmed st ->
  patch_todo sch Regex.caseless st id (text_body txt)
  = (mkResponse 400 (Message "Duplicate todo text"), st)
  <-> exists d, In d st /\ _id d <> oid
                /\ Js.eq_ci (text d) (Js.trim txt) = true.
Proof.
  intros Hp Hn Hc Hst. split.
  - rewrite (patch_todo_plain sch st id oid txt Hp Hn Hc Hst).
    destruct (find_duplicate (Js.trim txt) oid st) as [d|] eqn:E.
    + intros _. unfold find_duplicate in E. apply find_some in E.
      destruct E as [Hin Hd]. apply andb_true_iff in Hd.
      destruct Hd as [He Hid]. exists d. repeat split; auto.
      apply negb_true_iff, String.eqb_neq in Hid. exact Hid.
    + destruct (find_by_id oid st); intros H; inversion H.
  - intros (d & Hin & Hid & He).
    now apply (duplicate_plain_refused sch st id oid txt d).
Qed.

Lemma plain_update_refused_iff_witness :
  patch_todo TodoSchema Regex.caseless store_axb idB (text_body " AXB ")
  = (mkResponse 400 (Message "Duplicate todo text"), store_axb).
Proof.
  apply (plain_update_refused_iff TodoSchema store_axb idB idB " AXB "
           eq_refl ltac:(discriminate) eq_refl).
  - repeat constructor.
  - exists (mkTodo idA "axb" false 1000).
    split; [now left|]. split; [discriminate|reflexivity].
Defined.

(** X7: the item that is updated does not count as its own duplicate: a
    plain text that no other item has up to case is accepted, also when it
    is the item's present text in another case. *)
Theorem update_own_text_accepted (sch : Schema) (st : Store) (id : string)
    (oid : ObjectId) (d : Todo) (txt : string) :
  Regex.plain (Js.trim txt) = true -> Js.trim txt <> "" ->
  castObjectId id = Some oid -> Forall trimmed st ->
  find_by_id oid st = Some d ->
  (forall x, In x st -> _id x <> oid ->
             Js.eq_ci (text x) (Js.trim txt) = false) ->
  patch_todo sch Regex.caseless st id (text_body txt)
  = (mkResponse 200 (Item (set_text d (Js.trim txt))),
     update_by_id oid (fun x => set_text x (Js.trim txt)) st).
Proof.
  intros Hp Hn Hc Hst Hd Hno.
  rewrite (patch_todo_plain sch st id oid txt Hp Hn Hc Hst), Hd.
  destruct (find_duplicate (Js.trim txt) oid st) as [x|] eqn:E; [|reflexivity].
  exfalso. unfold find_duplicate in E. apply find_some in E.
  destruct E as [Hin Hx]. apply andb_true_iff in Hx. destruct Hx as [He Hid].
  apply negb_true_iff, String.eqb_neq in Hid.
  rewrite (Hno x Hin Hid) in He. discriminate.
Qed.

Lemma update_own_text_accepted_witness :
  Js.eq_ci (text (mkTodo idB "draft" false 1001)) (Js.trim " DRAFT ") = true
  /\ patch_todo TodoSchema Regex.caseless store_axb idB (text_body " DRAFT ")
     = (mkResponse 200 (Item (mkTodo idB "DRAFT" false 1001)),
        [mkTodo idA "axb" false 1000; mkTodo idB "DRAFT" false 1001]).
Proof.
  split; [reflexivity|].
  apply (update_own_text_accepted TodoSchema store_axb idB idB
           (mkTodo idB "draft" false 1001) " DRAFT "
           eq_refl ltac:(discriminate) eq_refl).
  - repeat constructor.
  - reflexivity.
  - intros x [<-|[<-|[]]] Hid; [reflexivity|]. now elim Hid.
Defined.

(** X8: a text with a parenthesis that is not balanced, among plain
    characters, makes the pattern of the duplicate check one that the engine
    refuses: the update is answered 500, not a validation error, and the
    collection is as before. *)
Theorem update_unbalanced_parenthesis (sch : Schema) (st : Store)
    (id : string) (oid : ObjectId) (txt t1 t2 : string) :
  castObjectId id = Some oid ->
  Regex.plain t1 = true -> Regex.plain t2 = true ->
  Js.trim txt = (t1 ++ "(" ++ t2)%string
  \/ Js.trim txt = (t1 ++ ")" ++ t2)%string ->
  status (fst (patch_todo sch Regex.caseless st id (text_body txt))) = 500
  /\ snd (patch_todo sch Regex.caseless st id (text_body txt)) = st.
Proof.
  intros Hc H1 H2 Ht.
  assert (Hn : Js.trim txt <> "").
  { destruct Ht as [-> | ->]; apply ParenFacts.append_nonempty; discriminate. }
  assert (Hq : Regex.caseless ("^" ++ Js.trim txt ++ "$")%string = None).
  { unfold Regex.caseless. destruct Ht as [-> | ->].
    - rewrite !ParenFacts.append_assoc.
      now rewrite (ParenFacts.compile_unclosed_open t1 t2 H1 H2).
    - rewrite !ParenFacts.append_assoc.
      now rewrite (ParenFacts.compile_unmatched_close t1 (t2 ++ "$") H1). }
  rewrite patch_todo_text by exact Hn.
  unfold findOne_regex_ne, cast_id. rewrite Hc. unfold bind. rewrite Hq.
  now split.
Qed.

Lemma update_unbalanced_parenthesis_witness :
  status (fst (patch_todo TodoSchema Regex.caseless store_axb idB
                 (text_body "all done :)"))) = 500.
Proof.
  apply (proj1 (update_unbalanced_parenthesis TodoSchema store_axb idB idB
                  "all done :)" "all done :" "" eq_refl eq_refl eq_refl
                  (or_intror eq_refl))).
Defined.

(** * Further properties of the client *)

(** ** Sorting and the operations of the list *)

Lemma find_sorted_append_newest (st : Store) (d : Todo) :
  Forall (fun x => (createdAt x < createdAt d)%Z) st ->
  find_sorted (st ++ [d]) = d :: find_sorted st.
Proof.
  induction 1 as [|x st Hx Hst IH]; simpl; [reflexivity|].
  rewrite IH. simpl.
  replace (createdAt d <? createdAt x)%Z with false; [reflexivity|].
  symmetry. apply Z.ltb_ge. lia.
Qed.

Lemma newer_first_trans (x y z : Todo) :
  newer_first x y -> newer_first y z -> newer_first x z.
Proof. unfold newer_first. lia. Qed.

Lemma sorted_head_newest (x : Todo) (l : list Todo) :
  Sorted newer_first (x :: l) -> Forall (newer_first x) l.
Proof.
  revert x. induction l as [|y l IH]; intros x Hs; [constructor|].
  inversion Hs as [|? ? Hs' Hhd]; subst. inversion Hhd; subst.
  constructor; [assumption|].
  eapply Forall_impl; [|apply (IH y Hs')].
  intros z Hz. now apply (newer_first_trans x y z).
Qed.

Lemma insert_desc_front (d : Todo) (l : list Todo) :
  Forall (fun y => (createdAt y < createdAt d)%Z) l -> insert_desc d l = d :: l.
Proof.
  destruct 1 as [|y l Hy Hl]; simpl; [reflexivity|].
  apply Z.ltb_lt in Hy. now rewrite Hy.
Qed.

Lemma filter_insert_desc_keep (p : Todo -> bool) (d : Todo) (l : list Todo) :
  Sorted newer_first l -> p d = true ->
  filter p (insert_desc d l) = insert_desc d (filter p l).
Proof.
  intros Hs Hd. induction l as [|x l IH]; simpl; [now rewrite Hd|].
  destruct (createdAt x <? createdAt d)%Z eqn:E.
  - change (filter p (d :: x :: l)) with
      (if p d then d :: filter p (x :: l) else filter p (x :: l)).
    rewrite Hd. symmetry. apply insert_desc_front.
    apply Z.ltb_lt in E.
    assert (Hall : Forall (fun y => (createdAt y < createdAt d)%Z) (x :: l)).
    { constructor; [exact E|].
      eapply Forall_impl; [|apply (sorted_head_newest x l Hs)].
      unfold newer_first. intros y Hy. simpl in Hy. lia. }
    apply Forall_forall. intros y Hy. apply filter_In in Hy.
    rewrite Forall_forall in Hall. now apply Hall.
  - inversion Hs as [|? ? Hs' _]; subst. simpl.
    destruct (p x); simpl; rewrite ?E, (IH Hs'); reflexivity.
Qed.

Lemma filter_insert_desc_drop (p : Todo -> bool) (d : Todo) (l : list Todo) :
  p d = false -> filter p (insert_desc d l) = filter p l.
Proof.
  intros Hd. induction l as [|x l IH]; simpl; [now rewrite Hd|].
  destruct (createdAt x <? createdAt d)%Z; simpl.
  - now rewrite Hd.
  - now rewrite IH.
Qed.

Lemma find_sorted_filter (p : Todo -> bool) (st : Store) :
  find_sorted (filter p st) = filter p (find_sorted st).
Proof.
  induction st as [|x st IH]; simpl; [reflexivity|].
  destruct (p x) eqn:E; simpl.
  - rewrite IH. symmetry.
    apply filter_insert_desc_keep; [apply find_sorted_sorted|exact E].
  - rewrite IH. symmetry. now apply filter_insert_desc_drop.
Qed.

Lemma map_insert_desc (g : Todo -> Todo) (d : Todo) (l : list Todo) :
  (forall x, createdAt (g x) = createdAt x) ->
  map g (insert_desc d l) = insert_desc (g d) (map g l).
Proof.
  intros Hg. induction l as [|x l IH]; simpl; [reflexivity|].
  rewrite !Hg. destruct (createdAt x <? createdAt d)%Z; simpl; [reflexivity|].
  now rewrite IH.
Qed.

Lemma find_sorted_map (g : Todo -> Todo) (st : Store) :
  (forall x, createdAt (g x) = createdAt x) ->
  find_sorted (map g st) = map g (find_sorted st).
Proof.
  intros Hg. induction st as [|x st IH]; simpl; [reflexivity|].
  now rewrite IH, map_insert_desc.
Qed.

Lemma filter_others_all (oid : ObjectId) (st : Store) :
  (forall x, In x st -> _id x <> oid) ->
  filter (fun d => negb (String.eqb (_id d) oid)) st = st.
Proof.
  induction st as [|x st IH]; intros H; simpl; [reflexivity|].
  destruct (String.eqb_spec (_id x) oid) as [E|E]; simpl.
  - exfalso. apply (H x); [now left|exact E].
  - rewrite IH; [reflexivity|]. intros y Hy. apply H. now right.
Qed.

(** Without two items of one identifier, deleting is filtering. *)
Lemma remove_by_id_filter (oid : ObjectId) (st : Store) :
  NoDup (map _id st) ->
  remove_by_id oid st = filter (fun d => negb (String.eqb (_id d) oid)) st.
Proof.
  induction st as [|x st IH]; simpl; intros Hnd; [reflexivity|].
  inversion Hnd as [|? ? Hx Hst]; subst.
  destruct (String.eqb_spec (_id x) oid) as [E|E]; simpl.
  - symmetry. apply filter_others_all. intros y Hy Heq. apply Hx.
    rewrite E, <- Heq. now apply in_map.
  - now rewrite IH.
Qed.

Lemma map_others_same (oid : ObjectId) (f : Todo -> Todo) (st : Store) :
  (forall x, In x st -> _id x <> oid) ->
  map (fun d => if String.eqb (_id d) oid then f d else d) st = st.
Proof.
  induction st as [|x st IH]; intros H; simpl; [reflexivity|].
  destruct (String.eqb_spec (_id x) oid) as [E|E].
  - exfalso. apply (H x); [now left|exact E].
  - rewrite IH; [reflexivity|]. intros y Hy. apply H. now right.
Qed.

(** And updating is mapping. *)
Lemma update_by_id_map (oid : ObjectId) (f : Todo -> Todo) (st : Store) :
  NoDup (map _id st) ->
  update_by_id oid f st
  = map (fun d => if String.eqb (_id d) oid then f d else d) st.
Proof.
  induction st as [|x st IH]; simpl; intros Hnd; [reflexivity|].
  inversion Hnd as [|? ? Hx Hst]; subst.
  destruct (String.eqb_spec (_id x) oid) as [E|E]; simpl.
  - f_equal. symmetry. apply map_others_same. intros y Hy Heq. apply Hx.
    rewrite E, <- Heq. now apply in_map.
  - now rewrite IH.
Qed.

(** ** Adding *)

Lemma set_path_text_truthy (sch : Schema) (txt : string) :
  Js.trim txt <> "" -> Js.truthy (set_path_text sch txt) = true.
Proof.
  intros Hn. apply JsFacts.truthy_true in Hn. unfold set_path_text.
  destruct (text_trim sch); [exact Hn|now apply JsFacts.trim_truthy].
Qed.

(** What [addTodo] does with an input that is not blank. *)
Lemma addTodo_sent (sch : Schema) (now : Z) (oid : ObjectId) (a : AppState) :
  Js.trim (inputText a) <> "" ->
  addTodo sch now oid a
  = let d := mkTodo oid (set_path_text sch (inputText a)) false now in
    mkApp (mkWorld (server (world a) ++ [d]) (d :: todos (world a))) "" false.
Proof.
  intros Hn. unfold addTodo, post_todo, save. simpl.
  pose proof (set_path_text_truthy sch _ Hn) as Hs.
  apply JsFacts.truthy_true in Hn.
  rewrite Hn, (JsFacts.trim_truthy _ Hn). simpl. now rewrite Hs.
Qed.

(** X9: [addTodo] sends nothing for a blank input and leaves the whole
    state as it is; for any other input the server always accepts the
    request, whatever the schema: the new item is appended to the collection
    and put at the front of the list, the input is cleared and [loading] is
    lowered. *)
Theorem add_guard_and_outcome (sch : Schema) (now : Z) (oid : ObjectId)
    (a : AppState) :
  (Js.trim (inputText a) = "" -> addTodo sch now oid a = a)
  /\ (Js.trim (inputText a) <> "" ->
      exists d,
        _id d = oid /\ createdAt d = now /\ completed d = false
        /\ text d = set_path_text sch (inputText a)
        /\ addTodo sch now oid a
           = mkApp (mkWorld (server (world a) ++ [d]) (d :: todos (world a)))
               "" false).
Proof.
  split.
  - intros Hb. unfold addTodo. now rewrite Hb.
  - intros Hn. rewrite (addTodo_sent sch now oid a Hn).
    exists (mkTodo oid (set_path_text sch (inputText a)) false now).
    repeat split.
Qed.

Lemma add_guard_and_outcome_witness :
  exists d,
    _id d = "507f1f77bcf86cd799439013" /\ createdAt d = 1002%Z
    /\ completed d = false /\ text d = "feed the cat"
    /\ addTodo TodoSchema 1002 "507f1f77bcf86cd799439013"
         (mkApp (mkWorld store_axb (find_sorted store_axb))
            " feed the cat " false)
       = mkApp (mkWorld (store_axb ++ [d]) (d :: find_sorted store_axb))
           "" false.
Proof.
  apply (proj2 (add_guard_and_outcome TodoSchema 1002
                  "507f1f77bcf86cd799439013"
                  (mkApp (mkWorld store_axb (find_sorted store_axb))
                     " feed the cat " false))).
  discriminate.
Defined.

(** X10: [addTodo] keeps the list equal to what the server would list,
    without fetching, when the clock of the creation is later than the
    creation of every stored item. *)
Theorem add_keeps_mirror (sch : Schema) (now : Z) (oid : ObjectId)
    (a : AppState) :
  mirrors (world a) ->
  Forall (fun x => (createdAt x < now)%Z) (server (world a)) ->
  mirrors (world (addTodo sch now oid a)).
Proof.
  intros Hm Hnew. destruct (String.eqb_spec (Js.trim (inputText a)) "") as [Hb|Hn].
  - unfold addTodo. now rewrite Hb.
  - rewrite (addTodo_sent sch now oid a Hn). unfold mirrors in *. simpl.
    rewrite find_sorted_append_newest by exact Hnew. now rewrite Hm.
Qed.

Lemma add_keeps_mirror_witness :
  mirrors
    (world (addTodo TodoSchema 1002 "507f1f77bcf86cd799439013"
              (mkApp (mkWorld store_axb (find_sorted store_axb))
                 " feed the cat " false))).
Proof.
  apply (add_keeps_mirror TodoSchema 1002 "507f1f77bcf86cd799439013"
           (mkApp (mkWorld store_axb (find_sorted store_axb))
              " feed the cat " false)).
  - reflexivity.
  - repeat constructor.
Defined.

(** ** Deleting *)

(** X11: [deleteTodo] keeps the list equal to what the server would list,
    for an identifier in the form the list has it, when no two stored items
    share an identifier. *)
Theorem delete_keeps_mirror (sch : Schema) (id : string) (w : World) :
  mirrors w -> NoDup (map _id (server w)) -> castObjectId id = Some id ->
  mirrors (deleteTodo sch id w).
Proof.
  intros Hm Hnd Hc. unfold deleteTodo.
  rewrite (delete_todo_cast sch (server w) id id Hc).
  destruct (find_by_id id (server w)); unfold mirrors in *; simpl.
  - rewrite (remove_by_id_filter id (server w) Hnd), find_sorted_filter.
    now rewrite Hm.
  - exact Hm.
Qed.

Lemma delete_keeps_mirror_witness :
  deleteTodo TodoSchema idA (mkWorld store_axb (find_sorted store_axb))
  = mkWorld [mkTodo idB "draft" false 1001] [mkTodo idB "draft" false 1001]
  /\ mirrors
       (deleteTodo TodoSchema idA (mkWorld store_axb (find_sorted store_axb))).
Proof.
  split; [reflexivity|].
  apply (delete_keeps_mirror TodoSchema idA
           (mkWorld store_axb (find_sorted store_axb))).
  - reflexivity.
  - repeat constructor; simpl; intuition discriminate.
  - reflexivity.
Defined.

(** X12: when the server does not confirm a deletion (the identifier does
    not cast, or no stored item has it), [deleteTodo] leaves the list as it
    is, also when the list still shows an item of that identifier. *)
Theorem delete_unconfirmed_keeps_list (sch : Schema) (id : string)
    (w : World) :
  (forall oid, castObjectId id = Some oid ->
               forall x, In x (server w) -> _id x <> oid) ->
  deleteTodo sch id w = w.
Proof.
  intros Hno. unfold deleteTodo. destruct w as [srv l]. simpl in *.
  destruct (castObjectId id) as [oid|] eqn:Hc.
  - rewrite (delete_todo_cast sch srv id oid Hc).
    specialize (Hno oid eq_refl). apply find_by_id_none in Hno.
    now rewrite Hno.
  - now rewrite (delete_todo_malformed sch srv id Hc).
Qed.

Lemma delete_unconfirmed_keeps_list_witness :
  deleteTodo TodoSchema idA
    (mkWorld [mkTodo idB "draft" false 1001] (find_sorted store_axb))
  = mkWorld [mkTodo idB "draft" false 1001] (find_sorted store_axb).
Proof.
  apply (delete_unconfirmed_keeps_list TodoSchema idA
           (mkWorld [mkTodo idB "draft" false 1001] (find_sorted store_axb))).
  intros oid H x Hx. inversion H; subst.
  destruct Hx as [<-|[]]. discriminate.
Defined.

(** ** Editing *)

(** A branch of [editTodo] whose request the server refuses. *)
Lemma patch_then_map_refused (sch : Schema)
    (engine : string -> option (string -> bool)) (id : string) (b : Body)
    (upd : Todo -> Todo) (w : World) :
  resolves (fst (patch_todo sch engine (server w) id b)) = false ->
  patch_then_map sch engine id b upd w
  = (Some (edit_failure (fst (patch_todo sch engine (server w) id b))), w).
Proof.
  intros Hr. unfold patch_then_map.
  assert (Hst : snd (patch_todo sch engine (server w) id b) = server w).
  { apply patch_todo_refused. intros Hs. unfold resolves in Hr.
    now rewrite Hs in Hr. }
  destruct (patch_todo sch engine (server w) id b) as [r srv]. simpl in *.
  rewrite Hr, Hst. now destruct w.
Qed.

(** A branch of [editTodo] whose request the server accepts. *)
Lemma patch_then_map_accepted (sch : Schema)
    (engine : string -> option (string -> bool)) (id : string) (b : Body)
    (upd : Todo -> Todo) (w : World) :
  resolves (fst (patch_todo sch engine (server w) id b)) = true ->
  exists txt oid,
    body_text b = Some txt /\ castObjectId id = Some oid
    /\ patch_then_map sch engine id b upd w
       = (None,
          mkWorld
            (update_by_id oid (fun x => set_text x (Js.trim txt)) (server w))
            (map (fun todo => if String.eqb (_id todo) id then upd todo
                              else todo) (todos w))).
Proof.
  intros Hr. unfold patch_then_map.
  destruct (patch_todo sch engine (server w) id b) as [r srv] eqn:Hp.
  simpl in Hr. rewrite Hr.
  pose proof (patch_todo_resolves _ _ _ _ _ _ _ Hp Hr) as Hs.
  destruct (patch_todo_ok _ _ _ _ _ _ _ Hp Hs)
    as (txt & oid & d & Ht & _ & Hc & _ & _ & _ & ->).
  now exists txt, oid.
Qed.

Lemma edit_failure_truthy (r : Response) : edit_failure r <> "".
Proof.
  unfold edit_failure, response_message.
  destruct (payload r) as [l|t|m]; try discriminate.
  destruct (Js.truthy m) eqn:E; [|discriminate].
  now apply JsFacts.truthy_true.
Qed.

(** What [editTodo] has done when it returns a message. *)
Lemma editTodo_message (sch : Schema)
    (engine : string -> option (string -> bool)) (id : string)
    (txt : option string) (cmp : option bool) (w w' : World) (m : string) :
  editTodo sch engine id txt cmp w = (Some m, w') ->
  w' = w /\ Js.truthy m = true.
Proof.
  unfold editTodo.
  assert (Hbranch : forall b upd,
             patch_then_map sch engine id b upd w = (Some m, w') ->
             w' = w /\ Js.truthy m = true).
  { intros b upd H.
    destruct (resolves (fst (patch_todo sch engine (server w) id b))) eqn:Hr.
    - destruct (patch_then_map_accepted sch engine id b upd w Hr)
        as (t & oid & _ & _ & H'). rewrite H' in H. discriminate.
    - rewrite (patch_then_map_refused sch engine id b upd w Hr) in H.
      inversion H; subst. split; [reflexivity|].
      apply JsFacts.truthy_true, edit_failure_truthy. }
  destruct (meaningful_text txt) as [t|]; [apply Hbranch|].
  destruct cmp as [c|]; [apply Hbranch|discriminate].
Qed.

(** X13: when [editTodo] returns a message, nothing has changed, neither on
    the server nor in the list, and the message is not empty (so that the
    caller's test of it tells a failure from a success). *)
Theorem edit_failure_changes_nothing (sch : Schema)
    (engine : string -> option (string -> bool)) (id : string)
    (txt : option string) (cmp : option bool) (w w' : World) (m : string) :
  editTodo sch engine id txt cmp w = (Some m, w') -> w' = w /\ m <> "".
Proof.
  intros H. destruct (editTodo_message _ _ _ _ _ _ _ _ H) as [Hw Hm].
  split; [exact Hw|now apply JsFacts.truthy_true].
Qed.

Lemma edit_failure_changes_nothing_witness :
  editTodo TodoSchema Regex.caseless idB (Some "a.b") None
    (mkWorld store_axb (find_sorted store_axb))
  = (Some "Duplicate todo text", mkWorld store_axb (find_sorted store_axb))
  /\ "Duplicate todo text" <> "".
Proof.
  split; [reflexivity|].
  apply (edit_failure_changes_nothing TodoSchema Regex.caseless idB
           (Some "a.b") None (mkWorld store_axb (find_sorted store_axb))
           (mkWorld store_axb (find_sorted store_axb)) "Duplicate todo text"
           eq_refl).
Defined.

(** X14: an edit with a text that has no white space around it keeps the
    list equal to what the server would list, whether the server accepts it
    or not, when no two stored items share an identifier and the identifier
    is in the form the list has it. *)
Theorem edit_trimmed_keeps_mirror (sch : Schema)
    (engine : string -> option (string -> bool)) (id : string) (txt : string)
    (cmp : option bool) (w : World) :
  mirrors w -> NoDup (map _id (server w)) -> castObjectId id = Some id ->
  Js.trim txt = txt ->
  mirrors (snd (editTodo sch engine id (Some txt) cmp w)).
Proof.
  intros Hm Hnd Hc Htrim. unfold editTodo.
  assert (Hbranch : forall b upd,
             resolves (fst (patch_todo sch engine (server w) id b)) = false ->
             mirrors (snd (patch_then_map sch engine id b upd w))).
  { intros b upd Hr. now rewrite (patch_then_map_refused _ _ _ _ _ _ Hr). }
  destruct (meaningful_text (Some txt)) as [t|] eqn:Ht.
  - simpl in Ht. destruct (String.eqb (Js.trim txt) ""); [discriminate|].
    inversion Ht; subst t.
    destruct (resolves (fst (patch_todo sch engine (server w) id
                               (text_body txt)))) eqn:Hr;
      [|now apply Hbranch].
    destruct (patch_then_map_accepted sch engine id (text_body txt)
                (fun todo => set_text todo txt) w Hr)
      as (t & oid & Hb & Hc' & ->).
    simpl in Hb. inversion Hb; subst t.
    rewrite Hc in Hc'. inversion Hc'; subst oid.
    unfold mirrors in *. simpl. rewrite Htrim.
    rewrite (update_by_id_map id (fun x => set_text x txt) (server w) Hnd).
    rewrite find_sorted_map, Hm; [reflexivity|].
    intros x. now destruct (String.eqb (_id x) id).
  - destruct cmp as [c|]; [|exact Hm].
    apply Hbranch. reflexivity.
Qed.

Lemma edit_trimmed_keeps_mirror_witness :
  snd (editTodo TodoSchema Regex.caseless idB (Some "call home") None
         (mkWorld store_axb (find_sorted store_axb)))
  = mkWorld [mkTodo idA "axb" false 1000; mkTodo idB "call home" false 1001]
      [mkTodo idB "call home" false 1001; mkTodo idA "axb" false 1000]
  /\ mirrors
       (snd (editTodo TodoSchema Regex.caseless idB (Some "call home") None
               (mkWorld store_axb (find_sorted store_axb)))).
Proof.
  split; [reflexivity|].
  apply (edit_trimmed_keeps_mirror TodoSchema Regex.caseless idB "call home"
           None (mkWorld store_axb (find_sorted store_axb))).
  - reflexivity.
  - repeat constructor; simpl; intuition discriminate.
  - reflexivity.
  - reflexivity.
Defined.

(** ** The editor of one item *)

(** X15: saving a blank text sends no request and changes nothing in the
    list or on the server, yet the editor closes without an error, as after
    a save that succeeded. *)
Theorem save_blank_closes_editor (sch : Schema)
    (engine : string -> option (string -> bool)) (todo : Todo)
    (s : TodoItem.State) (w : World) :
  Js.trim (TodoItem.editText s) = "" ->
  TodoItem.handleSaveClick sch engine todo s w
  = (TodoItem.mkState false (TodoItem.editText s) "", w).
Proof.
  intros Hb. unfold TodoItem.handleSaveClick, editTodo, meaningful_text.
  now rewrite Hb.
Qed.

Lemma save_blank_closes_editor_witness :
  TodoItem.handleSaveClick TodoSchema Regex.caseless
    (mkTodo idB "draft" false 1001)
    (TodoItem.mkState true "   " "")
    (mkWorld store_axb (find_sorted store_axb))
  = (TodoItem.mkState false "   " "",
     mkWorld store_axb (find_sorted store_axb)).
Proof.
  apply (save_blank_closes_editor TodoSchema Regex.caseless
           (mkTodo idB "draft" false 1001) (TodoItem.mkState true "   " "")
           (mkWorld store_axb (find_sorted store_axb)) eq_refl).
Defined.

(** X16: a save that ends with an error shown has changed nothing on the
    server or in the list and has kept the editor's mode and text; typing
    then clears the error, while cancelling keeps it, so that opening the
    editor again shows the todo's text with the old error. *)
Theorem save_refused_keeps_editing (sch : Schema)
    (engine : string -> option (string -> bool)) (todo : Todo)
    (s s1 : TodoItem.State) (w w1 : World) :
  TodoItem.handleSaveClick sch engine todo s w = (s1, w1) ->
  TodoItem.error s1 <> "" ->
  w1 = w
  /\ TodoItem.isEditing s1 = TodoItem.isEditing s
  /\ TodoItem.editText s1 = TodoItem.editText s
  /\ (forall v, TodoItem.error (TodoItem.handleChange v s1) = "")
  /\ TodoItem.handleEditClick todo (TodoItem.handleCancelClick todo s1)
     = TodoItem.mkState true (text todo) (TodoItem.error s1).
Proof.
  unfold TodoItem.handleSaveClick.
  destruct (editTodo sch engine (_id todo) (Some (TodoItem.editText s)) None w)
    as [[m|] w'] eqn:He.
  - destruct (editTodo_message _ _ _ _ _ _ _ _ He) as [-> Hm]. rewrite Hm.
    intros H _. inversion H; subst. simpl. repeat split.
    intros v. now rewrite Hm.
  - intros H Herr. inversion H; subst. simpl in Herr. now elim Herr.
Qed.

Lemma save_refused_keeps_editing_witness :
  TodoItem.handleEditClick (mkTodo idB "draft" false 1001)
    (TodoItem.handleCancelClick (mkTodo idB "draft" false 1001)
       (fst (TodoItem.handleSaveClick TodoSchema Regex.caseless
               (mkTodo idB "draft" false 1001)
               (TodoItem.mkState true "AXB" "")
               (mkWorld store_axb (find_sorted store_axb)))))
  = TodoItem.mkState true "draft" "Duplicate todo text".
Proof.
  apply (proj2 (proj2 (proj2 (proj2
           (save_refused_keeps_editing TodoSchema Regex.caseless
              (mkTodo idB "draft" false 1001)
              (TodoItem.mkState true "AXB" "")
              (TodoItem.mkState true "AXB" "Duplicate todo text")
              (mkWorld store_axb (find_sorted store_axb))
              (mkWorld store_axb (find_sorted store_axb))
              eq_refl ltac:(discriminate)))))).
Defined.

(** * Creation and the items that exist *)

(** X17: creation never looks at the items that exist: for a text that is
    not blank the answer is 201 and the item is appended, whatever the
    schema and whatever the collection holds, also an item of the very same
    text; only an update is checked for duplicates. *)
Theorem create_accepts_duplicate (sch : Schema) (now : Z) (oid : ObjectId)
    (st : Store) (txt : string) :
  Js.trim txt <> "" ->
  exists d,
    text d = set_path_text sch txt
    /\ post_todo sch now oid st (text_body txt)
       = (mkResponse 201 (Item d), st ++ [d]).
Proof.
  intros Hn. exists (mkTodo oid (set_path_text sch txt) false now).
  split; [reflexivity|]. unfold post_todo, save. simpl.
  pose proof (set_path_text_truthy sch _ Hn) as Hs.
  apply JsFacts.truthy_true in Hn.
  now rewrite (JsFacts.trim_truthy _ Hn), Hs.
Qed.

Lemma create_accepts_duplicate_witness :
  exists d,
    text d = "axb"
    /\ post_todo TodoSchema 1002 "507f1f77bcf86cd799439013" store_axb
         (text_body "axb")
       = (mkResponse 201 (Item d), store_axb ++ [d]).
Proof.
  apply (create_accepts_duplicate TodoSchema 1002 "507f1f77bcf86cd799439013"
           store_axb "axb").
  discriminate.
Defined.
